(** * Realtime console: session orchestrator, tool dispatch and proxy

    A shallow embedding of the TypeScript sources
      - [src/utils/on-tool.ts]           ([_onTool]),
      - [src/utils/conversation_config.ts] ([instructions], [voice], ...),
      - [src/pages/ConsolePage.tsx]      (session controller, tool handlers,
                                          event-log reducer),
      - [proxy-server/proxy.ts]          (the two proxy routes and the
                                          memory slice that follows them),
    together with the properties of the specification that speak about them.

    Conventions of the embedding.
      - JavaScript values are the inductive type [JsVal]; a thrown value is
        a [JsVal] as well, since [throw] and a rejected promise accept any
        value.
      - An [async] function is run to completion: the program is single
        threaded and cooperative, and none of the properties below depends
        on the interleaving of two handlers.  [await e] is therefore [e].
      - Code that reads or writes the page state, the store or a device is
        a state-passing function of type [M A]; every call on a device or
        on the transport is also appended to a chronological [trace].
      - [console.log], [console.warn] and [console.error] are not modelled. *)

From Stdlib Require Import ZArith QArith List String Ascii Bool Lia.
From stdpp Require Import base option list strings gmap pretty.

Open Scope Z_scope.
Open Scope string_scope.
Open Scope list_scope.

(** ** JavaScript values *)

(** Numbers are carried, never computed on: a number is an integer here,
    and the two readings that are fractions of a degree are kept in
    millionths. Strings are sequences of bytes (UTF-8). *)
#[warnings="-register-all"]
Inductive JsVal : Type :=
| VUndefined
| VNull
| VBool (b : bool)
| VNum (n : Z)
| VStr (s : string)
| VArr (items : list JsVal)
| VObj (fields : list (string * JsVal)).

(** The outcome of evaluating an expression or of awaiting a promise:
    a value, or an abrupt completion carrying the thrown value. *)
Inductive Completion (A : Type) : Type :=
| Normal (a : A)
| Throw (e : JsVal).
Arguments Normal {A} a.
Arguments Throw {A} e.

Definition dquote : string := String "034"%char EmptyString.
Definition newline : string := String "010"%char EmptyString.

(** [new Error(msg)] and [new TypeError(msg)]: objects whose [message]
    property is the given text. *)
Definition mkError (name msg : string) : JsVal :=
  VObj [("name", VStr name); ("message", VStr msg)].
Definition Error (msg : string) : JsVal := mkError "Error" msg.
Definition TypeError (msg : string) : JsVal := mkError "TypeError" msg.
Definition SyntaxError (msg : string) : JsVal := mkError "SyntaxError" msg.

Fixpoint assoc {A : Type} (k : string) (l : list (string * A)) : option A :=
  match l with
  | [] => None
  | (k', v) :: r => if String.eqb k k' then Some v else assoc k r
  end.

Definition is_nullish (v : JsVal) : bool :=
  match v with
  | VUndefined | VNull => true
  | _ => false
  end.

(** [v.k]: reading a property of [undefined] or [null] throws a TypeError;
    a primitive without that property, or an object without the field,
    gives [undefined]. *)
Definition Get (v : JsVal) (k : string) : Completion JsVal :=
  match v with
  | VUndefined => Throw (TypeError ("Cannot read properties of undefined (reading '" +:+ k +:+ "')"))
  | VNull => Throw (TypeError ("Cannot read properties of null (reading '" +:+ k +:+ "')"))
  | VObj fs => Normal (default VUndefined (assoc k fs))
  | _ => Normal VUndefined
  end.

(** [v?.k] *)
Definition GetOpt (v : JsVal) (k : string) : JsVal :=
  match v with
  | VObj fs => default VUndefined (assoc k fs)
  | _ => VUndefined
  end.

(** [a ?? b] *)
Definition nullish_coalesce (a b : JsVal) : JsVal :=
  if is_nullish a then b else a.

(** Truthiness, as tested by [if], [!], [&&] and [||]. *)
Definition ToBoolean (v : JsVal) : bool :=
  match v with
  | VUndefined | VNull => false
  | VBool b => b
  | VNum n => negb (Z.eqb n 0)
  | VStr s => negb (String.eqb s EmptyString)
  | VArr _ | VObj _ => true
  end.

(** [a || b] and [a && b] on values. *)
Definition js_or (a b : JsVal) : JsVal := if ToBoolean a then a else b.
Definition js_and (a b : JsVal) : JsVal := if ToBoolean a then b else a.

Fixpoint join (sep : string) (l : list string) : string :=
  match l with
  | [] => EmptyString
  | [x] => x
  | x :: r => x +:+ sep +:+ join sep r
  end.

(** [String(v)], as applied by template literals and by property keys. *)
Fixpoint ToString (v : JsVal) : string :=
  match v with
  | VUndefined => "undefined"
  | VNull => "null"
  | VBool true => "true"
  | VBool false => "false"
  | VNum n => pretty n
  | VStr s => s
  | VArr xs =>
      join "," (map (fun x => if is_nullish x then EmptyString else ToString x) xs)
  | VObj _ => "[object Object]"
  end.

(** ** Page state, store, devices and transport *)

(** [interface Coordinates] *)
Record Reading := { value : JsVal; units : JsVal }.
Record Coordinates := {
  lat : JsVal;
  lng : JsVal;
  location : JsVal;
  temperature : option Reading;
  wind_speed : option Reading }.

(** [interface RealtimeEvent]; of the protocol payload [event] the log
    reads the [type] and the [event_id]. *)
Inductive Source := client_source | server_source.
Record ProtocolEvent := { type : string; event_id : string }.
Record RealtimeEvent := {
  time : string;
  source : Source;
  count : option nat;
  event : ProtocolEvent }.

(** The session configuration held by the transport. [client.updateSession]
    takes a partial configuration and overwrites the fields it names, so a
    field is [None] while nothing has set it.  [turn_detection: null] is
    [Some TurnNone]. *)
Inductive TurnDetection := TurnNone | TurnServerVad.
Record SessionConfig := {
  cfg_instructions : option string;
  cfg_input_audio_transcription : option string;
  cfg_voice : option string;
  cfg_temperature : option Q;
  cfg_turn_detection : option TurnDetection }.

Definition no_fields : SessionConfig :=
  {| cfg_instructions := None; cfg_input_audio_transcription := None;
     cfg_voice := None; cfg_temperature := None; cfg_turn_detection := None |}.

Definition override {A : Type} (new old : option A) : option A :=
  match new with Some _ => new | None => old end.

Definition merge_config (patch cfg : SessionConfig) : SessionConfig :=
  {| cfg_instructions := override (cfg_instructions patch) (cfg_instructions cfg);
     cfg_input_audio_transcription :=
       override (cfg_input_audio_transcription patch) (cfg_input_audio_transcription cfg);
     cfg_voice := override (cfg_voice patch) (cfg_voice cfg);
     cfg_temperature := override (cfg_temperature patch) (cfg_temperature cfg);
     cfg_turn_detection := override (cfg_turn_detection patch) (cfg_turn_detection cfg) |}.

(** The transport ([RealtimeClient], an external package): whether it is
    connected, its session configuration, the names of the tools added to
    it and the conversation items it holds. *)
Record Client := {
  connected : bool;
  sessionConfig : SessionConfig;
  tools : list string;
  conversation : list JsVal }.

(** Modelled from the spec: the recorder of [lib/wavtools], which is not
    among the sources.  It captures frames while its status is
    [recording]; [record] starts capture, [pause] stops it, [end]
    releases the device. *)
Inductive RecorderStatus := ended | paused | recording.
Record WavRecorder := { status : RecorderStatus }.

(** Modelled from the spec: the stream player of [lib/wavtools].  It is
    either silent or playing a track, known by its identifier and the
    offset in samples reached so far; [interrupt] stops the output and
    returns that identifier and offset, or no track when nothing was
    playing. *)
Record WavStreamPlayer := { playing : option (string * nat) }.

(** Every call on a device, on the transport or on a provider, in the
    order in which the program makes it. *)
Inductive Effect :=
| RecorderBegin | RecorderRecord | RecorderPause | RecorderEnd
| PlayerConnect | PlayerInterrupt | PlayerAdd16BitPCM (trackId : string)
| ClientConnect | ClientDisconnect | ClientReset
| ClientUpdateSession (patch : SessionConfig)
| ClientAddTool (name : string)
| ClientSendUserMessageContent (text : string)
| ClientCancelResponse (trackId : string) (offset : nat)
| ClientCreateResponse
| ClientAppendInputAudio
| FetchCall (url : string)
| ImagesGenerate (prompt : JsVal)
| CheerioLoad
| TurndownCall.

(** The [useState] cells of [ConsolePage]. *)
Record PageState := {
  items : list JsVal;
  realtimeEvents : list RealtimeEvent;
  isConnected : bool;
  canPushToTalk : bool;
  isRecording : bool;
  coords : option Coordinates;
  marker : option Coordinates;
  information : JsVal;
  displayedImage : JsVal }.

(** Everything a handler can read or write: the page state, the memory
    slice of the store, the three [useRef] cells and the trace. *)
Record World := {
  page : PageState;
  memory : gmap string JsVal;
  clientRef : option Client;
  wavRecorderRef : WavRecorder;
  wavStreamPlayerRef : WavStreamPlayer;
  trace : list Effect }.

(** *** Field updates *)

Definition set_page (f : PageState -> PageState) (w : World) : World :=
  {| page := f (page w); memory := memory w; clientRef := clientRef w;
     wavRecorderRef := wavRecorderRef w;
     wavStreamPlayerRef := wavStreamPlayerRef w; trace := trace w |}.

Definition set_memory_slice (f : gmap string JsVal -> gmap string JsVal)
    (w : World) : World :=
  {| page := page w; memory := f (memory w); clientRef := clientRef w;
     wavRecorderRef := wavRecorderRef w;
     wavStreamPlayerRef := wavStreamPlayerRef w; trace := trace w |}.

Definition set_clientRef (c : option Client) (w : World) : World :=
  {| page := page w; memory := memory w; clientRef := c;
     wavRecorderRef := wavRecorderRef w;
     wavStreamPlayerRef := wavStreamPlayerRef w; trace := trace w |}.

Definition set_recorder (r : WavRecorder) (w : World) : World :=
  {| page := page w; memory := memory w; clientRef := clientRef w;
     wavRecorderRef := r;
     wavStreamPlayerRef := wavStreamPlayerRef w; trace := trace w |}.

Definition set_player (p : WavStreamPlayer) (w : World) : World :=
  {| page := page w; memory := memory w; clientRef := clientRef w;
     wavRecorderRef := wavRecorderRef w;
     wavStreamPlayerRef := p; trace := trace w |}.

Definition log_effect (e : Effect) (w : World) : World :=
  {| page := page w; memory := memory w; clientRef := clientRef w;
     wavRecorderRef := wavRecorderRef w;
     wavStreamPlayerRef := wavStreamPlayerRef w; trace := trace w ++ [e] |}.

Definition with_items (v : list JsVal) (p : PageState) : PageState :=
  {| items := v; realtimeEvents := realtimeEvents p;
     isConnected := isConnected p; canPushToTalk := canPushToTalk p;
     isRecording := isRecording p; coords := coords p; marker := marker p;
     information := information p; displayedImage := displayedImage p |}.

Definition with_realtimeEvents (v : list RealtimeEvent) (p : PageState) : PageState :=
  {| items := items p; realtimeEvents := v;
     isConnected := isConnected p; canPushToTalk := canPushToTalk p;
     isRecording := isRecording p; coords := coords p; marker := marker p;
     information := information p; displayedImage := displayedImage p |}.

Definition with_isConnected (v : bool) (p : PageState) : PageState :=
  {| items := items p; realtimeEvents := realtimeEvents p;
     isConnected := v; canPushToTalk := canPushToTalk p;
     isRecording := isRecording p; coords := coords p; marker := marker p;
     information := information p; displayedImage := displayedImage p |}.

Definition with_canPushToTalk (v : bool) (p : PageState) : PageState :=
  {| items := items p; realtimeEvents := realtimeEvents p;
     isConnected := isConnected p; canPushToTalk := v;
     isRecording := isRecording p; coords := coords p; marker := marker p;
     information := information p; displayedImage := displayedImage p |}.

Definition with_isRecording (v : bool) (p : PageState) : PageState :=
  {| items := items p; realtimeEvents := realtimeEvents p;
     isConnected := isConnected p; canPushToTalk := canPushToTalk p;
     isRecording := v; coords := coords p; marker := marker p;
     information := information p; displayedImage := displayedImage p |}.

Definition with_coords (v : option Coordinates) (p : PageState) : PageState :=
  {| items := items p; realtimeEvents := realtimeEvents p;
     isConnected := isConnected p; canPushToTalk := canPushToTalk p;
     isRecording := isRecording p; coords := v; marker := marker p;
     information := information p; displayedImage := displayedImage p |}.

Definition with_marker (v : option Coordinates) (p : PageState) : PageState :=
  {| items := items p; realtimeEvents := realtimeEvents p;
     isConnected := isConnected p; canPushToTalk := canPushToTalk p;
     isRecording := isRecording p; coords := coords p; marker := v;
     information := information p; displayedImage := displayedImage p |}.

Definition with_information (v : JsVal) (p : PageState) : PageState :=
  {| items := items p; realtimeEvents := realtimeEvents p;
     isConnected := isConnected p; canPushToTalk := canPushToTalk p;
     isRecording := isRecording p; coords := coords p; marker := marker p;
     information := v; displayedImage := displayedImage p |}.

Definition with_displayedImage (v : JsVal) (p : PageState) : PageState :=
  {| items := items p; realtimeEvents := realtimeEvents p;
     isConnected := isConnected p; canPushToTalk := canPushToTalk p;
     isRecording := isRecording p; coords := coords p; marker := marker p;
     information := information p; displayedImage := v |}.

(** ** The monad of handlers: state passing with abrupt completion *)

Definition M (A : Type) : Type := World -> Completion A * World.

Definition ret {A : Type} (a : A) : M A := fun w => (Normal a, w).
Definition throw {A : Type} (e : JsVal) : M A := fun w => (Throw e, w).
Definition lift {A : Type} (c : Completion A) : M A := fun w => (c, w).
Definition bind {A B : Type} (m : M A) (k : A -> M B) : M B :=
  fun w =>
    match m w with
    | (Normal a, w') => k a w'
    | (Throw e, w') => (Throw e, w')
    end.

(** [try { body } catch (error) { handler }]: what the body did before it
    threw stays done. *)
Definition try_catch {A : Type} (body : M A) (handler : JsVal -> M A) : M A :=
  fun w =>
    match body w with
    | (Normal a, w') => (Normal a, w')
    | (Throw e, w') => handler e w'
    end.

Definition modify (f : World -> World) : M unit := fun w => (Normal tt, f w).
Definition gets {A : Type} (f : World -> A) : M A := fun w => (Normal (f w), w).
Definition emit (e : Effect) : M unit := modify (log_effect e).

Declare Scope js_scope.
Delimit Scope js_scope with js.
Notation "x <- c1 ;; c2" := (bind c1 (fun x => c2))
  (at level 100, c1 at next level, right associativity) : js_scope.
Notation "c1 ;; c2" := (bind c1 (fun _ => c2))
  (at level 100, right associativity) : js_scope.
Open Scope js_scope.

(** The [useState] setters. *)
Definition setItems v : M unit := modify (set_page (with_items v)).
Definition setRealtimeEvents (f : list RealtimeEvent -> list RealtimeEvent) : M unit :=
  modify (set_page (fun p => with_realtimeEvents (f (realtimeEvents p)) p)).
Definition setIsConnected v : M unit := modify (set_page (with_isConnected v)).
Definition setCanPushToTalk v : M unit := modify (set_page (with_canPushToTalk v)).
Definition setIsRecording v : M unit := modify (set_page (with_isRecording v)).
Definition setCoords v : M unit := modify (set_page (with_coords v)).
Definition setMarker v : M unit := modify (set_page (with_marker v)).
Definition setInformation v : M unit := modify (set_page (with_information v)).
Definition setDisplayedImage v : M unit := modify (set_page (with_displayedImage v)).

(** ** [src/utils/on-tool.ts] *)

(** [_onTool(args, handler)]: the handler runs inside [try]; its result,
    when [null] or [undefined], is replaced by [{ success: true }]; the
    [catch] clause reads [error.message] and returns [{ error: ... }]. *)
Definition _onTool (args : JsVal) (handler : JsVal -> M JsVal) : M JsVal :=
  try_catch
    (r <- handler args ;;
     ret (nullish_coalesce r (VObj [("success", VBool true)])))
    (fun error =>
       message <- lift (Get error "message") ;;
       ret (VObj [("error", message)])).

(** ** The memory slice of the store (second half of [proxy-server/proxy.ts]) *)

(** [initialState] *)
Definition initialState : gmap string JsVal := ∅.

(** The four reducers.  A property key is a string: [state.memory[k]]
    with any other [k] uses [String(k)]. *)
Definition setMemory (payload : gmap string JsVal) (m : gmap string JsVal) :
  gmap string JsVal := payload.
Definition removeMemory (payload : JsVal) (m : gmap string JsVal) :
  gmap string JsVal := delete (ToString payload) m.
Definition updateMemory (key value : JsVal) (m : gmap string JsVal) :
  gmap string JsVal := <[ToString key := value]> m.
Definition clearMemory (m : gmap string JsVal) : gmap string JsVal := ∅.

(** [dispatch(action)] of the store. *)
Definition dispatch (reducer : gmap string JsVal -> gmap string JsVal) : M unit :=
  modify (set_memory_slice reducer).

(** [({ key, value }) => ...]: destructuring a parameter reads the named
    properties of the argument, and throws when the argument is [null] or
    [undefined]. *)
Definition destructure (args : JsVal) (k : string) : M JsVal :=
  lift (Get args k).

Definition ok_true : JsVal := VObj [("ok", VBool true)].

(** ** The tool handlers of [ConsolePage] *)

Definition set_memory (args : JsVal) : M JsVal :=
  _onTool args (fun a =>
    key <- destructure a "key" ;;
    value <- destructure a "value" ;;
    dispatch (updateMemory key value) ;;
    ret ok_true).

Definition remove_memory (args : JsVal) : M JsVal :=
  _onTool args (fun a =>
    key <- destructure a "key" ;;
    dispatch (removeMemory key) ;;
    ret ok_true).

(** ** Pure code that can throw *)

Definition cbind {A B : Type} (c : Completion A) (k : A -> Completion B) :
  Completion B :=
  match c with
  | Normal a => k a
  | Throw e => Throw e
  end.

Notation "x <-- c1 ;; c2" := (cbind c1 (fun x => c2))
  (at level 100, c1 at next level, right associativity) : js_scope.

(** [xs.map(f)] and [xs.filter(p)] with callbacks that can throw: the
    elements are visited from left to right and the first throw ends the
    loop. *)
Fixpoint map_throwing {A B : Type} (f : A -> Completion B) (xs : list A) :
  Completion (list B) :=
  match xs with
  | [] => Normal []
  | x :: r => y <-- f x ;; ys <-- map_throwing f r ;; Normal (y :: ys)
  end.

Fixpoint filter_throwing {A : Type} (p : A -> Completion bool) (xs : list A) :
  Completion (list A) :=
  match xs with
  | [] => Normal []
  | x :: r =>
      b <-- p x ;; ys <-- filter_throwing p r ;;
      Normal (if b then x :: ys else ys)
  end.

(** [v[i]] *)
Definition GetIndex (v : JsVal) (i : nat) : Completion JsVal :=
  match v with
  | VUndefined => Throw (TypeError ("Cannot read properties of undefined (reading '" +:+ pretty i +:+ "')"))
  | VNull => Throw (TypeError ("Cannot read properties of null (reading '" +:+ pretty i +:+ "')"))
  | VArr xs => Normal (nth i xs VUndefined)
  | VStr s =>
      Normal (match String.get i s with
              | Some c => VStr (String c EmptyString)
              | None => VUndefined
              end)
  | VObj fs => Normal (default VUndefined (assoc (pretty i) fs))
  | _ => Normal VUndefined
  end.

(** ** String built-ins *)

Definition hex_digit (n : nat) : ascii :=
  ascii_of_nat (if Nat.ltb n 10 then 48 + n else 55 + n).

Definition percent_encode (c : ascii) : string :=
  let n := nat_of_ascii c in
  String "%" (String (hex_digit (Nat.div n 16))
                (String (hex_digit (Nat.modulo n 16)) EmptyString)).

(** The characters [encodeURIComponent] leaves as they are: letters,
    digits and [- _ . ! ~ * ' ( )]. *)
Definition uri_unreserved (c : ascii) : bool :=
  let n := nat_of_ascii c in
  (Nat.leb 65 n && Nat.leb n 90) || (Nat.leb 97 n && Nat.leb n 122)
  || (Nat.leb 48 n && Nat.leb n 57)
  || existsb (Nat.eqb n) [45; 95; 46; 33; 126; 42; 39; 40; 41]%nat.

Fixpoint encodeURIComponent (s : string) : string :=
  match s with
  | EmptyString => EmptyString
  | String c r =>
      (if uri_unreserved c then String c EmptyString else percent_encode c)
      +:+ encodeURIComponent r
  end.

(** White space and line terminators of the language, in UTF-8: the six
    one-byte characters U+0009..U+000D and U+0020, the no-break space
    U+00A0, and U+1680, U+2000..U+200A, U+2028, U+2029, U+202F, U+205F,
    U+3000, U+FEFF. *)
Definition white1 (c : ascii) : bool :=
  let n := nat_of_ascii c in
  (Nat.leb 9 n && Nat.leb n 13) || Nat.eqb n 32.

Definition white2 (c1 c2 : ascii) : bool :=
  Nat.eqb (nat_of_ascii c1) 194 && Nat.eqb (nat_of_ascii c2) 160.

Definition white3 (c1 c2 c3 : ascii) : bool :=
  let a := nat_of_ascii c1 in
  let b := nat_of_ascii c2 in
  let c := nat_of_ascii c3 in
  (Nat.eqb a 225 && Nat.eqb b 154 && Nat.eqb c 128)
  || (Nat.eqb a 226 && Nat.eqb b 128 &&
      ((Nat.leb 128 c && Nat.leb c 138) || Nat.eqb c 168 || Nat.eqb c 169
       || Nat.eqb c 175))
  || (Nat.eqb a 226 && Nat.eqb b 129 && Nat.eqb c 159)
  || (Nat.eqb a 227 && Nat.eqb b 128 && Nat.eqb c 128)
  || (Nat.eqb a 239 && Nat.eqb b 187 && Nat.eqb c 191).

(** A string made of white space only (the empty string included). *)
Fixpoint is_blank (s : string) : bool :=
  match s with
  | EmptyString => true
  | String c1 r1 =>
      if white1 c1 then is_blank r1
      else match r1 with
           | String c2 r2 =>
               if white2 c1 c2 then is_blank r2
               else match r2 with
                    | String c3 r3 =>
                        if white3 c1 c2 c3 then is_blank r3 else false
                    | EmptyString => false
                    end
           | EmptyString => false
           end
  end.

Fixpoint trimStart (s : string) : string :=
  match s with
  | EmptyString => EmptyString
  | String c1 r1 =>
      if white1 c1 then trimStart r1
      else match r1 with
           | String c2 r2 =>
               if white2 c1 c2 then trimStart r2
               else match r2 with
                    | String c3 r3 =>
                        if white3 c1 c2 c3 then trimStart r3 else s
                    | EmptyString => s
                    end
           | EmptyString => s
           end
  end.

Fixpoint trimEnd (s : string) : string :=
  match s with
  | EmptyString => EmptyString
  | String c r => if is_blank s then EmptyString else String c (trimEnd r)
  end.

(** [s.trim()] *)
Definition trim (s : string) : string := trimEnd (trimStart s).

(** [s.replace(/<[^>]*>?/gm, '')]: every [<], the characters other than
    [>] that follow it and the [>] that ends them, when there is one, are
    removed. *)
Fixpoint strip_tags_from (in_tag : bool) (s : string) : string :=
  match s with
  | EmptyString => EmptyString
  | String c r =>
      if in_tag then
        strip_tags_from (negb (Ascii.eqb c ">")) r
      else if Ascii.eqb c "<" then strip_tags_from true r
      else String c (strip_tags_from false r)
  end.
Definition strip_tags (s : string) : string := strip_tags_from false s.

(** ** Providers *)

(** What the program reads of a [fetch] response: [ok], [statusText],
    and the outcome of awaiting [json()] and [text()], each of which may
    reject. *)
Record Response := {
  ok : bool;
  statusText : string;
  json : Completion JsVal;
  text : Completion string }.

(** The world outside the page, fixed for one run: the clock reading of
    [currentTimeFormatted], the outcome of [fetch] for each URL (a
    rejected fetch is a [Throw]), of [openAI.images.generate] for each
    prompt, of the cheerio pipeline ([load], [remove], [$('body').html()],
    [null] being [None]) and of [turndown]. *)
Record Env := {
  now : string;
  fetch_outcome : string -> Completion Response;
  images_outcome : JsVal -> Completion JsVal;
  cheerio_body_html : string -> Completion (option string);
  turndown_outcome : string -> Completion string }.

(** [currentTimeFormatted()] (second half of [src/utils/on-tool.ts]) *)
Definition currentTimeFormatted (env : Env) : string := now env.

Definition fetch (env : Env) (url : string) : M Response :=
  emit (FetchCall url) ;; lift (fetch_outcome env url).

Definition images_generate (env : Env) (prompt : JsVal) : M JsVal :=
  emit (ImagesGenerate prompt) ;; lift (images_outcome env prompt).

Definition get_time (env : Env) (args : JsVal) : M JsVal :=
  _onTool args (fun _ =>
    ret (VObj [("ok", VBool true); ("value", VStr (currentTimeFormatted env))])).

Definition place (lat lng location : JsVal) : Coordinates :=
  {| lat := lat; lng := lng; location := location;
     temperature := None; wind_speed := None |}.

Definition show_location (args : JsVal) : M JsVal :=
  _onTool args (fun a =>
    lat <- destructure a "lat" ;;
    lng <- destructure a "lng" ;;
    location <- destructure a "location" ;;
    setMarker (Some (place lat lng location)) ;;
    setCoords (Some (place lat lng location)) ;;
    ret ok_true).

Definition show_info (args : JsVal) : M JsVal :=
  _onTool args (fun a =>
    information <- destructure a "information" ;;
    setInformation information ;;
    ret ok_true).

Definition weather_url (lat lng : JsVal) : string :=
  "https://api.open-meteo.com/v1/forecast?latitude=" +:+ ToString lat
  +:+ "&longitude=" +:+ ToString lng
  +:+ "&current=temperature_2m,wind_speed_10m".

(** [json.a.b] *)
Definition Get2 (v : JsVal) (a b : string) : Completion JsVal :=
  x <-- Get v a ;; Get x b.

Definition get_weather (env : Env) (args : JsVal) : M JsVal :=
  _onTool args (fun a =>
    lat <- destructure a "lat" ;;
    lng <- destructure a "lng" ;;
    location <- destructure a "location" ;;
    setMarker (Some (place lat lng location)) ;;
    setCoords (Some (place lat lng location)) ;;
    result <- fetch env (weather_url lat lng) ;;
    json <- lift (json result) ;;
    t_value <- lift (Get2 json "current" "temperature_2m") ;;
    t_units <- lift (Get2 json "current_units" "temperature_2m") ;;
    w_value <- lift (Get2 json "current" "wind_speed_10m") ;;
    w_units <- lift (Get2 json "current_units" "wind_speed_10m") ;;
    setMarker (Some {| lat := lat; lng := lng; location := location;
                       temperature := Some {| value := t_value; units := t_units |};
                       wind_speed := Some {| value := w_value; units := w_units |} |}) ;;
    ret json).

Definition generate_image (env : Env) (args : JsVal) : M JsVal :=
  _onTool args (fun a =>
    prompt <- destructure a "prompt" ;;
    response <- images_generate env prompt ;;
    data <- lift (Get response "data") ;;
    first <- lift (GetIndex data 0) ;;
    image_url <- lift (Get first "url") ;;
    setDisplayedImage (js_or image_url VNull) ;;
    ret (VObj [("ok", VBool true); ("displayedToUser", VBool true);
               ("image_url", image_url)])).

Definition failure (message : string) : JsVal :=
  VObj [("ok", VBool false); ("message", VStr message)].

Definition related_topics_url (query : JsVal) : string :=
  "https://api.duckduckgo.com/?q=" +:+ encodeURIComponent (ToString query)
  +:+ "&format=json".

(** The entry built for a topic or a sub-topic. *)
Definition topic_entry (t : JsVal) : Completion JsVal :=
  title <-- Get t "Text" ;;
  url <-- Get t "FirstURL" ;;
  snippet <-- Get t "Text" ;;
  icon <-- Get t "Icon" ;;
  Normal (VObj [("title", title); ("url", url); ("snippet", snippet);
                ("icon_url", js_or (GetOpt icon "URL") VNull)]).

(** [t.FirstURL && t.Text], as a condition *)
Definition has_url_and_text (t : JsVal) : Completion bool :=
  u <-- Get t "FirstURL" ;;
  if ToBoolean u then x <-- Get t "Text" ;; Normal (ToBoolean x)
  else Normal false.

Definition not_a_function (what : string) : JsVal :=
  TypeError (what +:+ " is not a function").

(** The body of the [forEach] callback: the entries it pushes for one
    topic (none or one). *)
Definition related_topic (topic : JsVal) : Completion (list JsVal) :=
  sub <-- Get topic "Topics" ;;
  if ToBoolean sub then
    category <-- Get topic "Name" ;;
    match sub with
    | VArr subTopics =>
        kept <-- filter_throwing has_url_and_text subTopics ;;
        topics <-- map_throwing topic_entry kept ;;
        Normal [VObj [("category", category); ("topics", VArr topics)]]
    | _ => Throw (not_a_function "topic.Topics.filter")
    end
  else
    b <-- has_url_and_text topic ;;
    if b then e <-- topic_entry topic ;; Normal [e] else Normal [].

(** [data.RelatedTopics?.forEach(...)], giving the final [relatedTopics]. *)
Definition collect_related_topics (data : JsVal) : Completion (list JsVal) :=
  rt <-- Get data "RelatedTopics" ;;
  if is_nullish rt then Normal []
  else match rt with
       | VArr ts => pushed <-- map_throwing related_topic ts ;; Normal (concat pushed)
       | _ => Throw (not_a_function "data.RelatedTopics.forEach")
       end.

Definition search_related_topics (env : Env) (args : JsVal) : M JsVal :=
  _onTool args (fun a =>
    query <- destructure a "query" ;;
    try_catch
      (response <- fetch env (related_topics_url query) ;;
       data <- lift (json response) ;;
       relatedTopics <- lift (collect_related_topics data) ;;
       ret (match relatedTopics with
            | _ :: _ => VObj [("ok", VBool true); ("relatedTopics", VArr relatedTopics)]
            | [] => failure "No related topics found"
            end))
      (fun _ => ret (failure "Error retrieving related topics"))).

(** [wikipedia_search] and [webpage_scrape] are registered without
    [_onTool]: their parameter is destructured before the [try] begins. *)

Definition wikipedia_api_url (language query : JsVal) : string :=
  "https://" +:+ ToString language
  +:+ ".wikipedia.org/w/api.php?action=query&list=search&srsearch="
  +:+ encodeURIComponent (ToString query) +:+ "&format=json&origin=*".

Definition wikipedia_page_url (language pageid : JsVal) : string :=
  "https://" +:+ ToString language +:+ ".wikipedia.org/?curid="
  +:+ ToString pageid.

(** The callback of [search.map]. *)
Definition search_result (language result : JsVal) : Completion JsVal :=
  title <-- Get result "title" ;;
  snippet <-- Get result "snippet" ;;
  stripped <-- match snippet with
               | VStr s => Normal (VStr (strip_tags s))
               | VUndefined | VNull => Get snippet "replace"
               | _ => Throw (not_a_function "result.snippet.replace")
               end ;;
  pageid <-- Get result "pageid" ;;
  pageid' <-- Get result "pageid" ;;
  Normal (VObj [("title", title); ("snippet", stripped); ("pageid", pageid);
                ("url", VStr (wikipedia_page_url language pageid'))]).

(** [data?.query?.search?.map(...)]; [None] is [undefined]. *)
Definition search_results (language data : JsVal) :
  Completion (option (list JsVal)) :=
  let search := GetOpt (GetOpt data "query") "search" in
  if is_nullish search then Normal None
  else match search with
       | VArr rs => xs <-- map_throwing (search_result language) rs ;; Normal (Some xs)
       | _ => Throw (not_a_function "data?.query?.search?.map")
       end.

Definition wikipedia_search (env : Env) (args : JsVal) : M JsVal :=
  query <- destructure args "query" ;;
  given <- destructure args "language" ;;
  let language := match given with VUndefined => VStr "en" | _ => given end in
  try_catch
    (response <- fetch env (wikipedia_api_url language query) ;;
     data <- lift (json response) ;;
     searchResults <- lift (search_results language data) ;;
     ret (match searchResults with
          | Some (x :: r) =>
              VObj [("ok", VBool true); ("searchResults", VArr (x :: r))]
          | _ => failure "No search results found"
          end))
    (fun _ => ret (failure "Error searching Wikipedia")).

Definition scrape_url (url : JsVal) : string :=
  "http://localhost:8082/scrape?url=" +:+ encodeURIComponent (ToString url).

Definition webpage_scrape (env : Env) (args : JsVal) : M JsVal :=
  url <- destructure args "url" ;;
  try_catch
    (response <- fetch env (scrape_url url) ;;
     (if ok response then ret tt
      else throw (Error ("Failed to fetch webpage: " +:+ statusText response))) ;;
     htmlContent <- lift (text response) ;;
     if String.eqb (trim htmlContent) EmptyString then
       ret (failure "No text content found on the webpage")
     else
       emit CheerioLoad ;;
       body <- lift (cheerio_body_html env htmlContent) ;;
       let cleanedHtmlContent := default EmptyString body in
       emit TurndownCall ;;
       markdownContent <- lift (turndown_outcome env cleanedHtmlContent) ;;
       ret (VObj [("ok", VBool true); ("markdownContent", VStr markdownContent)]))
    (fun _ => ret (failure "Error scraping webpage")).

(** The tools by name, as the setup effect registers them. *)
Definition tool_names : list string :=
  ["set_memory"; "remove_memory"; "get_time"; "show_location"; "show_info";
   "get_weather"; "generate_image"; "search_related_topics";
   "wikipedia_search"; "webpage_scrape"].

Definition tool_handler (env : Env) (name : string) : option (JsVal -> M JsVal) :=
  if String.eqb name "set_memory" then Some set_memory
  else if String.eqb name "remove_memory" then Some remove_memory
  else if String.eqb name "get_time" then Some (get_time env)
  else if String.eqb name "show_location" then Some show_location
  else if String.eqb name "show_info" then Some show_info
  else if String.eqb name "get_weather" then Some (get_weather env)
  else if String.eqb name "generate_image" then Some (generate_image env)
  else if String.eqb name "search_related_topics" then Some (search_related_topics env)
  else if String.eqb name "wikipedia_search" then Some (wikipedia_search env)
  else if String.eqb name "webpage_scrape" then Some (webpage_scrape env)
  else None.

(** ** [JSON.stringify(value, null, 2)] *)

Definition backslash : string := String "092"%char EmptyString.

Definition json_escape (c : ascii) : string :=
  let n := nat_of_ascii c in
  if Nat.eqb n 34 then backslash +:+ dquote
  else if Nat.eqb n 92 then backslash +:+ backslash
  else if Nat.eqb n 8 then backslash +:+ "b"
  else if Nat.eqb n 12 then backslash +:+ "f"
  else if Nat.eqb n 10 then backslash +:+ "n"
  else if Nat.eqb n 13 then backslash +:+ "r"
  else if Nat.eqb n 9 then backslash +:+ "t"
  else if Nat.ltb n 32 then
    backslash +:+ "u00"
    +:+ String (ascii_of_nat (if Nat.ltb n 16 then 48 else 49))
          (String (let d := Nat.modulo n 16 in
                   ascii_of_nat (if Nat.ltb d 10 then 48 + d else 87 + d))
             EmptyString)
  else String c EmptyString.

Fixpoint json_escape_all (s : string) : string :=
  match s with
  | EmptyString => EmptyString
  | String c r => json_escape c +:+ json_escape_all r
  end.

Definition json_quote (s : string) : string :=
  dquote +:+ json_escape_all s +:+ dquote.

Definition json_block (opening closing ind inner : string) (parts : list string) :
  string :=
  match parts with
  | [] => opening +:+ closing
  | _ => opening +:+ newline +:+ inner
         +:+ join ("," +:+ newline +:+ inner) parts
         +:+ newline +:+ ind +:+ closing
  end.

(** The text of a value at indentation [ind]; [None] where
    [JSON.stringify] gives [undefined].  An [undefined] property of an
    object is left out, an [undefined] element of an array is [null]. *)
Fixpoint stringify (ind : string) (v : JsVal) {struct v} : option string :=
  match v with
  | VUndefined => None
  | VNull => Some "null"
  | VBool true => Some "true"
  | VBool false => Some "false"
  | VNum n => Some (pretty n)
  | VStr s => Some (json_quote s)
  | VArr xs =>
      let inner := ind +:+ "  " in
      Some (json_block "[" "]" ind inner
              (map (fun x => default "null" (stringify inner x)) xs))
  | VObj fs =>
      let inner := ind +:+ "  " in
      Some (json_block "{" "}" ind inner
              (omap (fun p => let '(k, x) := p in
                              match stringify inner x with
                              | Some s => Some (json_quote k +:+ ": " +:+ s)
                              | None => None
                              end) fs))
  end.

(** [JSON.stringify(memory, null, 2)].  The properties are listed in the
    order of [map_to_list]. *)
Definition JSON_stringify_memory (m : gmap string JsVal) : string :=
  default "undefined" (stringify EmptyString (VObj (map_to_list m))).

(** ** [src/utils/conversation_config.ts] *)

Module conversation_config.

(** [instructions]: the template ends with the clock reading taken when
    the module is loaded. *)
Definition instructions (env : Env) : string :=
  join newline
    ["System settings:";
     "Tool use: enabled.";
     EmptyString;
     "Instructions:";
     "- You are a friendly artificial intelligence assistant";
     "- Please make sure to respond with a helpful voice via audio";
     "- Be kind, helpful, and curteous";
     "- It is okay to ask the user questions";
     "- Use tools and functions you have available liberally";
     "- Be open to exploration and conversation";
     "- Sprich deutsch";
     "- Dein Name ist Luna";
     "- mein Name ist Alex";
     "- Wenn du etwas über mich erfährst, dann merke es dir mit deiner 'set_memory' Funktion.";
     "- Zuhörermodus: Wenn ich dich bitte, zuzuhören, wechsele ohne weitere Bestätigung in den Zuhörermodus. ";
     "Im Zuhörermodus hörst du einem Gespräch oder einer Geschichte zu.";
     "Es ist nicht bekannt, ob ich Teilnehmer des Gesprächs oder der Geschichte bin.";
     "Reagiere im Zuhörermodus nur, wenn ich dich mit deinem Namen direkt anspreche.";
     "Während du still zuhörst, nutze aktiv und wiederholt die Funktion (Tool) 'show_info', um mir relevante Informationen zum Gespräch oder zur Geschichte anzuzeigen.";
     "Bevor du in den Zuhörermodus wechselst, wiederhole diese Regeln (abgesehen von dieser). Bestätige final den Wechsel in den Zuhörermodus.";
     "- Starte die Konversation mit einer persönlichen Frage oder einer persönlichen Anmerkung.";
     EmptyString;
     "Personality:";
     "- Be upbeat and genuine";
     "- Try speaking quickly as if excited";
     EmptyString;
     "Current time: " +:+ currentTimeFormatted env;
     EmptyString].

Definition startingPrompt : string := "Hallo".
Definition voice : string := "alloy".
Definition temperature : Q := (8 # 10)%Q.
Definition showAudioControls : bool := false.

End conversation_config.

(** ** Devices and transport: the calls the page makes *)

Definition update_client (f : Client -> Client) : M unit :=
  modify (fun w => set_clientRef (f <$> clientRef w) w).

Definition with_sessionConfig (cfg : SessionConfig) (c : Client) : Client :=
  {| connected := connected c; sessionConfig := cfg; tools := tools c;
     conversation := conversation c |}.
Definition with_connected (b : bool) (c : Client) : Client :=
  {| connected := b; sessionConfig := sessionConfig c; tools := tools c;
     conversation := conversation c |}.
Definition with_tools (l : list string) (c : Client) : Client :=
  {| connected := connected c; sessionConfig := sessionConfig c; tools := l;
     conversation := conversation c |}.

(** [new RealtimeClient(...)] *)
Definition new_client : Client :=
  {| connected := false; sessionConfig := no_fields; tools := [];
     conversation := [] |}.

Definition client_updateSession (patch : SessionConfig) : M unit :=
  emit (ClientUpdateSession patch) ;;
  update_client (fun c => with_sessionConfig (merge_config patch (sessionConfig c)) c).

Definition client_connect : M unit :=
  emit ClientConnect ;; update_client (with_connected true).
Definition client_disconnect : M unit :=
  emit ClientDisconnect ;; update_client (with_connected false).
Definition client_addTool (name : string) : M unit :=
  emit (ClientAddTool name) ;;
  update_client (fun c => with_tools (tools c ++ [name]) c).
Definition client_isConnected : M bool :=
  gets (fun w => match clientRef w with Some c => connected c | None => false end).
Definition client_getItems : M (list JsVal) :=
  gets (fun w => match clientRef w with Some c => conversation c | None => [] end).
Definition client_getTurnDetectionType : M (option TurnDetection) :=
  gets (fun w => match clientRef w with
                 | Some c => cfg_turn_detection (sessionConfig c)
                 | None => None
                 end).

Definition recorder_set (s : RecorderStatus) : M unit :=
  modify (set_recorder {| status := s |}).
Definition wavRecorder_begin : M unit := emit RecorderBegin ;; recorder_set paused.
Definition wavRecorder_record : M unit := emit RecorderRecord ;; recorder_set recording.
Definition wavRecorder_pause : M unit := emit RecorderPause ;; recorder_set paused.
Definition wavRecorder_end : M unit := emit RecorderEnd ;; recorder_set ended.
Definition wavRecorder_getStatus : M RecorderStatus :=
  gets (fun w => status (wavRecorderRef w)).

Definition wavStreamPlayer_connect : M unit := emit PlayerConnect.
Definition wavStreamPlayer_interrupt : M (option (string * nat)) :=
  emit PlayerInterrupt ;;
  cut <- gets (fun w => playing (wavStreamPlayerRef w)) ;;
  modify (set_player {| playing := None |}) ;;
  ret cut.

(** The callback given to [wavRecorder.record] at its three call sites. *)
Definition onFrame : M unit :=
  up <- client_isConnected ;;
  if up then emit ClientAppendInputAudio else ret tt.

(** The recorder delivering one captured chunk: it calls the callback
    only while its status is [recording]. *)
Definition deliver_frame : M unit :=
  s <- wavRecorder_getStatus ;;
  match s with
  | recording => onFrame
  | _ => ret tt
  end.

(** ** The session controller of [ConsolePage] *)

(** The initial value of [coords], in millionths of a degree. *)
Definition default_coords : Coordinates :=
  {| lat := VNum 37775593; lng := VNum (-122418137); location := VUndefined;
     temperature := None; wind_speed := None |}.

(** [if (!client) return;] *)
Definition when_client (body : M unit) : M unit :=
  fun w => match clientRef w with
           | None => (Normal tt, w)
           | Some _ => body w
           end.

Definition connectConversation : M unit :=
  when_client
    (setIsConnected true ;;
     setRealtimeEvents (fun _ => []) ;;
     (its <- client_getItems ;; setItems its) ;;
     wavRecorder_begin ;;
     wavStreamPlayer_connect ;;
     client_connect ;;
     emit (ClientSendUserMessageContent conversation_config.startingPrompt) ;;
     mode <- client_getTurnDetectionType ;;
     match mode with
     | Some TurnServerVad => wavRecorder_record
     | _ => ret tt
     end).

Definition disconnectConversation : M unit :=
  setIsConnected false ;;
  setRealtimeEvents (fun _ => []) ;;
  setItems [] ;;
  setCoords (Some default_coords) ;;
  setMarker None ;;
  when_client
    (client_disconnect ;;
     wavRecorder_end ;;
     (_ <- wavStreamPlayer_interrupt ;; ret tt)).

Definition startRecording : M unit :=
  setIsRecording true ;;
  when_client
    (trackSampleOffset <- wavStreamPlayer_interrupt ;;
     match trackSampleOffset with
     | Some (trackId, offset) =>
         if ToBoolean (VStr trackId)
         then emit (ClientCancelResponse trackId offset)
         else ret tt
     | None => ret tt
     end ;;
     wavRecorder_record).

Definition stopRecording : M unit :=
  setIsRecording false ;;
  when_client
    (wavRecorder_pause ;;
     up <- client_isConnected ;;
     if up then emit ClientCreateResponse else ret tt).

Definition turn_detection_patch (t : TurnDetection) : SessionConfig :=
  {| cfg_instructions := None; cfg_input_audio_transcription := None;
     cfg_voice := None; cfg_temperature := None;
     cfg_turn_detection := Some t |}.

Definition changeTurnEndType (value : string) : M unit :=
  when_client
    (s <- wavRecorder_getStatus ;;
     (if String.eqb value "none" && match s with recording => true | _ => false end
      then wavRecorder_pause else ret tt) ;;
     client_updateSession
       (turn_detection_patch (if String.eqb value "none" then TurnNone else TurnServerVad)) ;;
     up <- client_isConnected ;;
     (if String.eqb value "server_vad" && up then wavRecorder_record else ret tt) ;;
     setCanPushToTalk (String.eqb value "none")).

(** ** The setup effect and the life cycle of the component *)

(** The text given as [instructions] by the setup effect. *)
Definition instructions_with_memory (env : Env) (m : gmap string JsVal) : string :=
  conversation_config.instructions env +:+ newline +:+ newline
  +:+ "Current Memory:" +:+ newline +:+ JSON_stringify_memory m.

Definition instructions_patch (s : string) : SessionConfig :=
  {| cfg_instructions := Some s; cfg_input_audio_transcription := None;
     cfg_voice := None; cfg_temperature := None; cfg_turn_detection := None |}.
Definition transcription_patch (model : string) : SessionConfig :=
  {| cfg_instructions := None; cfg_input_audio_transcription := Some model;
     cfg_voice := None; cfg_temperature := None; cfg_turn_detection := None |}.
Definition voice_patch (v : string) (t : Q) : SessionConfig :=
  {| cfg_instructions := None; cfg_input_audio_transcription := None;
     cfg_voice := Some v; cfg_temperature := Some t; cfg_turn_detection := None |}.

Fixpoint add_tools (names : list string) : M unit :=
  match names with
  | [] => ret tt
  | n :: r => client_addTool n ;; add_tools r
  end.

(** The first effect of the component: it creates the client when the
    reference is still empty. *)
Definition create_client_effect : M unit :=
  modify (fun w => match clientRef w with
                   | None => set_clientRef (Some new_client) w
                   | Some _ => w
                   end).

(** The effect "Core RealtimeClient and audio capture setup".  [memory]
    is the value selected from the store at the render that runs the
    effect.  The four [client.on] subscriptions install the functions
    [on_realtime_event], ... below and leave no other mark. *)
Definition setup_effect (env : Env) : M unit :=
  when_client
    (memory <- gets memory ;;
     client_updateSession (instructions_patch (instructions_with_memory env memory)) ;;
     client_updateSession (transcription_patch "whisper-1") ;;
     client_updateSession
       (voice_patch conversation_config.voice conversation_config.temperature) ;;
     add_tools tool_names ;;
     its <- client_getItems ;;
     setItems its).

(** Its cleanup, [client.reset()]. *)
Definition setup_cleanup : M unit :=
  when_client (emit ClientReset ;; update_client (fun _ => new_client)).

(** What a render can see change. *)
Inductive Cell :=
| cell_apiKey | cell_memory | cell_items | cell_realtimeEvents
| cell_coords | cell_marker | cell_information | cell_displayedImage.

Definition Cell_eqb (a b : Cell) : bool :=
  match a, b with
  | cell_apiKey, cell_apiKey | cell_memory, cell_memory
  | cell_items, cell_items | cell_realtimeEvents, cell_realtimeEvents
  | cell_coords, cell_coords | cell_marker, cell_marker
  | cell_information, cell_information
  | cell_displayedImage, cell_displayedImage => true
  | _, _ => false
  end.

(** The dependency arrays of the two effects: [[apiKey]] and [[]]. *)
Definition create_client_deps : list Cell := [cell_apiKey].
Definition setup_effect_deps : list Cell := [].

Definition depends_on (deps changed : list Cell) : bool :=
  existsb (fun d => existsb (Cell_eqb d) changed) deps.

(** Mounting runs every effect once, in the order of the source. *)
Definition mount (env : Env) : M unit :=
  create_client_effect ;; setup_effect env.

(** A later render runs an effect again, after its cleanup, only when
    one of its dependencies has changed. *)
Definition rerender (env : Env) (changed : list Cell) : M unit :=
  (if depends_on create_client_deps changed then create_client_effect else ret tt) ;;
  (if depends_on setup_effect_deps changed
   then setup_cleanup ;; setup_effect env else ret tt).

(** The cells a tool handler can write. *)
Definition tool_written_cells : list Cell :=
  [cell_memory; cell_coords; cell_marker; cell_information; cell_displayedImage].

(** The agent calling a tool: the handler runs, its outcome goes back to
    the transport, and the page renders again. *)
Definition agent_tool_call (env : Env) (name : string) (args : JsVal) : M unit :=
  match tool_handler env name with
  | Some handler =>
      fun w => rerender env tool_written_cells (snd (handler args w))
  | None => ret tt
  end.

Fixpoint agent_tool_calls (env : Env) (calls : list (string * JsVal)) : M unit :=
  match calls with
  | [] => ret tt
  | (name, args) :: r => agent_tool_call env name args ;; agent_tool_calls env r
  end.

(** The instructions the transport holds. *)
Definition held_instructions (w : World) : option string :=
  c ← clientRef w; cfg_instructions (sessionConfig c).

(** ** The event log *)

Definition with_count (n : option nat) (e : RealtimeEvent) : RealtimeEvent :=
  {| time := time e; source := source e; count := n; event := event e |}.

(** The updater given to [setRealtimeEvents]: [lastEvent] is
    [realtimeEvents[realtimeEvents.length - 1]], [slice(0, -1)] is the
    list without it. *)
Definition on_realtime_event (realtimeEvent : RealtimeEvent)
    (realtimeEvents : list RealtimeEvent) : list RealtimeEvent :=
  match last realtimeEvents with
  | Some lastEvent =>
      if String.eqb (type (event lastEvent)) (type (event realtimeEvent)) then
        removelast realtimeEvents
          ++ [with_count (Some (default 0%nat (count lastEvent) + 1)%nat) lastEvent]
      else realtimeEvents ++ [realtimeEvent]
  | None => realtimeEvents ++ [realtimeEvent]
  end.

Definition handle_realtime_event (realtimeEvent : RealtimeEvent) : M unit :=
  setRealtimeEvents (on_realtime_event realtimeEvent).

(** The log after a sequence of inbound events, oldest first. *)
Definition log_of (evs : list RealtimeEvent) : list RealtimeEvent :=
  fold_left (fun log e => on_realtime_event e log) evs [].

(** The handler of [conversation.interrupted]. *)
Definition on_conversation_interrupted : M unit :=
  trackSampleOffset <- wavStreamPlayer_interrupt ;;
  match trackSampleOffset with
  | Some (trackId, offset) =>
      if ToBoolean (VStr trackId)
      then emit (ClientCancelResponse trackId offset)
      else ret tt
  | None => ret tt
  end.

(** ** [proxy-server/proxy.ts]: the two routes *)

Module ProxyServer.

(** What a route sends back, and the URLs it has asked the wrapped
    provider for. *)
Inductive Body := SendText (s : string) | SendJson (data : JsVal).
Record Reply := { statusCode : nat; body : Body }.
Record Handled := { reply : Reply; contacted : list string }.

(** [req.query.name]; an absent parameter is [undefined]. *)
Definition query_param (query : list (string * JsVal)) (name : string) : JsVal :=
  default VUndefined (assoc name query).

Definition required (name : string) : string :=
  "Query parameter " +:+ dquote +:+ name +:+ dquote +:+ " is required".

Definition duckduckgo_url (query : JsVal) : string :=
  "https://api.duckduckgo.com/?q=" +:+ encodeURIComponent (ToString query)
  +:+ "&format=json".

(** [app.get('/proxy', ...)]; [net] is the outcome of [fetch] per URL. *)
Definition proxy_route (net : string -> Completion Response)
    (req_query : list (string * JsVal)) : Handled :=
  let query := query_param req_query "q" in
  if negb (ToBoolean query) then
    {| reply := {| statusCode := 400; body := SendText (required "q") |};
       contacted := [] |}
  else
    let apiUrl := duckduckgo_url query in
    {| reply :=
         match (response <-- net apiUrl ;; json response) with
         | Normal data => {| statusCode := 200; body := SendJson data |}
         | Throw _ =>
             {| statusCode := 500;
                body := SendText "Error fetching data from DuckDuckGo" |}
         end;
       contacted := [apiUrl] |}.

(** [app.get('/scrape', ...)] *)
Definition scrape_route (net : string -> Completion Response)
    (req_query : list (string * JsVal)) : Handled :=
  let url := query_param req_query "url" in
  if negb (ToBoolean url) then
    {| reply := {| statusCode := 400; body := SendText (required "url") |};
       contacted := [] |}
  else
    {| reply :=
         match (response <-- net (ToString url) ;;
                _ <-- (if ok response then Normal tt
                       else Throw (Error ("Failed to fetch webpage: "
                                          +:+ statusText response))) ;;
                text response) with
         | Normal html => {| statusCode := 200; body := SendText html |}
         | Throw _ =>
             {| statusCode := 500; body := SendText "Error scraping webpage" |}
         end;
       contacted := [ToString url] |}.

(** A GET request, by path. *)
Definition get (net : string -> Completion Response) (path : string)
    (req_query : list (string * JsVal)) : option Handled :=
  if String.eqb path "/proxy" then Some (proxy_route net req_query)
  else if String.eqb path "/scrape" then Some (scrape_route net req_query)
  else None.

End ProxyServer.

(** ** Vocabulary of the properties *)

(** The outcome of running [m] from [w], and the world it leaves. *)
Definition result {A : Type} (m : M A) (w : World) : Completion A := fst (m w).
Definition after {A : Type} (m : M A) (w : World) : World := snd (m w).

(** The page before it is mounted: the initial values of the [useState]
    and [useRef] cells and of the store. *)
Definition initial_page : PageState :=
  {| items := []; realtimeEvents := []; isConnected := false;
     canPushToTalk := true; isRecording := false;
     coords := Some default_coords; marker := None;
     information := VNull; displayedImage := VNull |}.

Definition initial_world : World :=
  {| page := initial_page; memory := initialState; clientRef := None;
     wavRecorderRef := {| status := ended |};
     wavStreamPlayerRef := {| playing := None |}; trace := [] |}.

(** A world without network: every request rejects with the TypeError
    of a failed fetch. *)
Definition offline : Env :=
  {| now := "Monday, November 2, 2026 at 10:00:00 AM";
     fetch_outcome := fun _ => Throw (TypeError "Failed to fetch");
     images_outcome := fun _ => Throw (Error "Connection error.");
     cheerio_body_html := fun _ => Normal None;
     turndown_outcome := fun s => Normal s |}.

(** Arguments of the tools, as the agent sends them. *)
Definition set_memory_args (key value : JsVal) : JsVal :=
  VObj [("key", key); ("value", value)].
Definition remove_memory_args (key : JsVal) : JsVal :=
  VObj [("key", key)].

(** The pushes of session configuration found in a trace. *)
Definition session_pushes (t : list Effect) : list SessionConfig :=
  omap (fun e => match e with ClientUpdateSession p => Some p | _ => None end) t.

(** *** Runs of events *)

Definition same_type (a b : RealtimeEvent) : bool :=
  String.eqb (type (event a)) (type (event b)).

(** The maximal runs of consecutive events of one type, in order: each
    run is its first event and the events that repeat it. *)
Fixpoint runs (evs : list RealtimeEvent) :
  list (RealtimeEvent * list RealtimeEvent) :=
  match evs with
  | [] => []
  | e :: r =>
      match runs r with
      | (e', g) :: rs =>
          if same_type e e' then (e, e' :: g) :: rs
          else (e, []) :: (e', g) :: rs
      | [] => [(e, [])]
      end
  end.

(** The runs of a sequence extended by one event: the event joins the
    last run when it has the type of that run, and opens a run
    otherwise. *)
Fixpoint snoc_run (e : RealtimeEvent)
    (rs : list (RealtimeEvent * list RealtimeEvent)) :
  list (RealtimeEvent * list RealtimeEvent) :=
  match rs with
  | [] => [(e, [])]
  | (h, g) :: rest =>
      match rest with
      | [] => if same_type h e then [(h, g ++ [e])] else [(h, g); (e, [])]
      | _ :: _ => (h, g) :: snoc_run e rest
      end
  end.

(** Two neighbouring runs differ in type. *)
Fixpoint neighbours_differ (rs : list (RealtimeEvent * list RealtimeEvent)) : Prop :=
  match rs with
  | a :: (b :: _) as rest => same_type (fst a) (fst b) = false /\ neighbours_differ rest
  | _ => True
  end.

Definition run_length (r : RealtimeEvent * list RealtimeEvent) : nat :=
  S (length (snd r)).

(** The log entry of a run according to the specification: the counter
    is unset for a single event and is the run length otherwise. *)
Definition entry_with_run_length (r : RealtimeEvent * list RealtimeEvent) :
  RealtimeEvent :=
  with_count (if Nat.eqb (run_length r) 1 then None else Some (run_length r))
    (fst r).

(** The log entry of a run according to the code: the counter is unset
    for a single event and counts the repeats otherwise. *)
Definition entry_with_repeats (r : RealtimeEvent * list RealtimeEvent) :
  RealtimeEvent :=
  with_count (if Nat.eqb (run_length r) 1 then None
              else Some (run_length r - 1)%nat)
    (fst r).

(** An inbound event, as the transport emits it: no counter. *)
Definition inbound (e : RealtimeEvent) : Prop := count e = None.

(** The first reading of the specification: the counter of an entry is
    the length of its run. *)
Definition log_counts_run_length : Prop :=
  forall evs, Forall inbound evs ->
    log_of evs = map entry_with_run_length (runs evs).

(** Sample inbound events. *)
Definition server_event (ty id : string) : RealtimeEvent :=
  {| time := "2026-11-02T10:00:00.000Z"; source := server_source;
     count := None; event := {| type := ty; event_id := id |} |}.
Definition delta_1 : RealtimeEvent := server_event "response.audio.delta" "event_1".
Definition delta_2 : RealtimeEvent := server_event "response.audio.delta" "event_2".
Definition delta_3 : RealtimeEvent := server_event "response.audio.delta" "event_4".
Definition audio_done : RealtimeEvent := server_event "response.audio.done" "event_3".

(** A computation that leaves the transport alone: it does not touch the
    client and pushes no session configuration. *)
Definition quiet {A : Type} (m : M A) : Prop :=
  forall w, clientRef (after m w) = clientRef w
            /\ session_pushes (trace (after m w)) = session_pushes (trace w).

Definition pushes_nothing (e : Effect) : bool :=
  match e with ClientUpdateSession _ => false | _ => true end.

(** Calls of the two memory tools only. *)
Definition memory_calls (calls : list (string * JsVal)) : Prop :=
  Forall (fun c => fst c = "set_memory" \/ fst c = "remove_memory") calls.

(** The first reading of the specification: whatever memory calls the
    agent makes after setup, the transport holds instructions that embed
    the current memory. *)
Definition instructions_follow_memory : Prop :=
  forall env calls w, memory_calls calls ->
    let w' := after (mount env ;; agent_tool_calls env calls) w in
    held_instructions w' = Some (instructions_with_memory env (memory w')).

(** The page mounted and connected, in push-to-talk mode. *)
Definition connected_world : World :=
  after (mount offline ;; connectConversation) initial_world.



(** The connected page in server-VAD mode, the recorder capturing. *)
Definition listening_world : World :=
  after (changeTurnEndType "server_vad") connected_world.

(** The turn-detection setting the transport holds. *)
Definition held_turn_detection (w : World) : option TurnDetection :=
  c ← clientRef w; cfg_turn_detection (sessionConfig c).

Definition transport_connected (w : World) : bool :=
  match clientRef w with Some c => connected c | None => false end.

(** A page with a memory, a marker and a logged event, in server-VAD
    mode. *)
Definition busy_world : World :=
  after (agent_tool_calls offline
           [("set_memory", set_memory_args (VStr "name") (VStr "Alex"));
            ("show_location",
             VObj [("lat", VNum 52520008); ("lng", VNum 13404954);
                   ("location", VStr "Berlin")])])
    (after (handle_realtime_event delta_1) listening_world).

(** *** Shapes of tool results *)

Definition is_failure (v : JsVal) : Prop := exists message, v = failure message.
Definition is_success (v : JsVal) : Prop :=
  exists data, v = VObj (("ok", VBool true) :: data).





Definition berlin : JsVal :=
  VObj [("lat", VNum 52520008); ("lng", VNum 13404954);
        ("location", VStr "Berlin")].

(** A scrape proxy that answers every request with a page of blanks. *)
Definition blank_page : Response :=
  {| ok := true; statusText := "OK"; json := Throw (SyntaxError "Unexpected end of JSON input");
     text := Normal (String "032"%char (String "010"%char (String "009"%char EmptyString))) |}.
Definition blank_pages : Env :=
  {| now := now offline;
     fetch_outcome := fun _ => Normal blank_page;
     images_outcome := images_outcome offline;
     cheerio_body_html := cheerio_body_html offline;
     turndown_outcome := turndown_outcome offline |}.

(** The language [wikipedia_search] uses for given arguments. *)
Definition language_of (args : JsVal) : JsVal :=
  match GetOpt args "language" with
  | VUndefined => VStr "en"
  | _ => GetOpt args "language"
  end.

(** A result in the common shape: a success with its data, or
    [{ ok: false, message }]. *)
Definition in_common_shape (v : JsVal) : Prop := is_success v \/ is_failure v.

(** The query parameter each route of the proxy asks for. *)
Definition required_parameter (path : string) : option string :=
  if String.eqb path "/proxy" then Some "q"
  else if String.eqb path "/scrape" then Some "url"
  else None.

(** The answer to a request that lacks the parameter [name]. *)
Definition bad_request (name : string) : ProxyServer.Handled :=
  {| ProxyServer.reply :=
       {| ProxyServer.statusCode := 400;
          ProxyServer.body := ProxyServer.SendText (ProxyServer.required name) |};
     ProxyServer.contacted := [] |}.

(** A network on which every request of the proxy is refused. *)
Definition unreachable (url : string) : Completion Response :=
  Throw (Error ("request to " +:+ url +:+ " failed")).

(** ** Display helpers of [ConsolePage] *)

(** The [while] loop of [pad]: a ["0"] is put in front as long as the
    text has fewer than two characters.  [fuel] bounds the number of
    turns; two are enough for any text ([pad_loop_done]). *)
Fixpoint pad_loop (fuel : nat) (s : string) : string :=
  if Nat.ltb (String.length s) 2 then
    match fuel with
    | O => s
    | S fuel' => pad_loop fuel' ("0" +:+ s)
    end
  else s.

(** [pad(n)]: [n + ''] is the decimal text of the integer. *)
Definition pad (n : Z) : string := pad_loop 2 (pretty n).

(** [formatTime(timestamp)], with the two dates given by their value in
    milliseconds: [startTime] is [new Date(startTimeRef.current).valueOf()]
    and [timestamp] is [new Date(timestamp).valueOf()].  [Math.floor] of a
    quotient is [Z.div]; [%] takes the sign of the dividend, as [Z.rem]. *)
Definition formatTime (startTime timestamp : Z) : string :=
  let delta := timestamp - startTime in
  let hs := Z.rem (delta / 10) 100 in
  let s := Z.rem (delta / 1000) 60 in
  let m := Z.rem (delta / 60000) 60 in
  pad m +:+ ":" +:+ pad s +:+ "." +:+ pad hs.

(** The updater of [toggleVisibility(block)]:
    [{ ...prev, [block]: !prev[block] }]; a block that is not in the
    object reads as [undefined], whose negation is [true]. *)
Definition toggleVisibility (block : string) (prev : gmap string bool) :
  gmap string bool :=
  <[block := negb (default false (prev !! block))]> prev.

(** The click handler of an event summary, on a copy of
    [expandedEvents]: the entry is deleted when it is set, and set to
    [true] otherwise. *)
Definition toggle_expanded (id : string) (expandedEvents : gmap string bool) :
  gmap string bool :=
  if default false (expandedEvents !! id) then delete id expandedEvents
  else <[id := true]> expandedEvents.

(** What a block or an event shows: [visibleBlocks.events && ...] and
    [!!expandedEvents[event.event_id] && ...]. *)
Definition shown (cells : gmap string bool) (key : string) : bool :=
  default false (cells !! key).

(** The label of a log entry: [{event.type}{count && ` (${count})`}].
    A counter of [0] is falsy and is rendered as it is. *)
Definition event_label (e : RealtimeEvent) : string :=
  type (event e)
  +:+ match count e with
      | None => EmptyString
      | Some O => "0"
      | Some n => " (" +:+ pretty n +:+ ")"
      end.

(** The number of inbound events an entry stands for. *)
Definition tally (e : RealtimeEvent) : nat := S (default 0%nat (count e)).

(** Neighbouring entries of a log differ in type. *)
Fixpoint types_alternate (log : list RealtimeEvent) : Prop :=
  match log with
  | a :: (b :: _) as rest => same_type a b = false /\ types_alternate rest
  | _ => True
  end.

(** ** Vocabulary for the provider-backed tools *)

(** A topic is kept when it has both a URL and a text. *)
Definition topic_kept (t : JsVal) : bool :=
  ToBoolean (GetOpt t "FirstURL") && ToBoolean (GetOpt t "Text").

(** What is returned for a kept topic. *)
Definition topic_shown (t : JsVal) : JsVal :=
  VObj [("title", GetOpt t "Text"); ("url", GetOpt t "FirstURL");
        ("snippet", GetOpt t "Text");
        ("icon_url", js_or (GetOpt (GetOpt t "Icon") "URL") VNull)].

(** What is returned for one element of [RelatedTopics]: a category with
    its kept sub-topics, a kept topic, or nothing. *)
Definition topics_shown (t : JsVal) : list JsVal :=
  if ToBoolean (GetOpt t "Topics") then
    match GetOpt t "Topics" with
    | VArr subTopics =>
        [VObj [("category", GetOpt t "Name");
               ("topics", VArr (map topic_shown (List.filter topic_kept subTopics)))]]
    | _ => []
    end
  else if topic_kept t then [topic_shown t] else [].

(** An element of [RelatedTopics] the loop can read: an object or a
    primitive, whose [Topics], when set, is an array of such values. *)
Definition readable_topic (t : JsVal) : Prop :=
  is_nullish t = false
  /\ (ToBoolean (GetOpt t "Topics") = true ->
      exists subTopics, GetOpt t "Topics" = VArr subTopics
                        /\ Forall (fun s => is_nullish s = false) subTopics).

(** What is returned for one search result whose snippet is a string. *)
Definition result_shown (language r : JsVal) : JsVal :=
  VObj [("title", GetOpt r "title");
        ("snippet", match GetOpt r "snippet" with
                    | VStr s => VStr (strip_tags s)
                    | _ => GetOpt r "snippet"
                    end);
        ("pageid", GetOpt r "pageid");
        ("url", VStr (wikipedia_page_url language (GetOpt r "pageid")))].

Definition readable_result (r : JsVal) : Prop :=
  is_nullish r = false /\ exists s, GetOpt r "snippet" = VStr s.

(** Whether a character occurs in a string. *)
Fixpoint occurs (c : ascii) (s : string) : bool :=
  match s with
  | EmptyString => false
  | String c' r => Ascii.eqb c c' || occurs c r
  end.

(** The marker [get_weather] leaves after it has read the forecast. *)
Definition weather_marker (args forecast : JsVal) : Coordinates :=
  {| lat := GetOpt args "lat"; lng := GetOpt args "lng";
     location := GetOpt args "location";
     temperature :=
       Some {| value := GetOpt (GetOpt forecast "current") "temperature_2m";
               units := GetOpt (GetOpt forecast "current_units") "temperature_2m" |};
     wind_speed :=
       Some {| value := GetOpt (GetOpt forecast "current") "wind_speed_10m";
               units := GetOpt (GetOpt forecast "current_units") "wind_speed_10m" |} |}.

(** The place named by the arguments of [show_location] and [get_weather]. *)
Definition place_of (args : JsVal) : Coordinates :=
  place (GetOpt args "lat") (GetOpt args "lng") (GetOpt args "location").

(** Sample provider answers. *)
Definition json_response (data : JsVal) : Response :=
  {| ok := true; statusText := "OK"; json := Normal data;
     text := Throw (TypeError "body used already") |}.

Definition forecast : JsVal :=
  VObj [("current", VObj [("temperature_2m", VNum 12); ("wind_speed_10m", VNum 9)]);
        ("current_units",
         VObj [("temperature_2m", VStr "°C"); ("wind_speed_10m", VStr "km/h")])].

Definition answering (data : JsVal) : Env :=
  {| now := now offline;
     fetch_outcome := fun _ => Normal (json_response data);
     images_outcome := fun _ => Normal data;
     cheerio_body_html := cheerio_body_html offline;
     turndown_outcome := turndown_outcome offline |}.

Definition instant_answer : JsVal :=
  VObj [("RelatedTopics",
         VArr [VObj [("FirstURL", VStr "https://duckduckgo.com/Berlin");
                     ("Text", VStr "Berlin, capital of Germany")];
               VObj [("Text", VStr "no link")];
               VObj [("Name", VStr "Places");
                     ("Topics",
                      VArr [VObj [("FirstURL", VStr "https://duckduckgo.com/Berlin,_NH");
                                  ("Text", VStr "Berlin, New Hampshire")]])]])].

Definition wikipedia_answer : JsVal :=
  VObj [("query",
         VObj [("search",
                VArr [VObj [("title", VStr "Berlin");
                            ("snippet", VStr "<span class=searchmatch>Berlin</span> is the capital");
                            ("pageid", VNum 3354)]])])].

Definition berlin_query : JsVal := VObj [("query", VStr "Berlin")].

Definition spoiled_answer : JsVal :=
  VObj [("RelatedTopics",
         VArr [VObj [("FirstURL", VStr "https://duckduckgo.com/Berlin");
                     ("Text", VStr "Berlin, capital of Germany")];
               VNull])].

Definition wikipedia_query : JsVal := VObj [("query", VStr "Berlin")].

(** Whether the scrape collaborator has delivered a page with text: a
    success whose body can be read and is not blank. *)
Definition page_has_text (o : Completion Response) : bool :=
  match o with
  | Normal r =>
      ok r && match text r with
              | Normal t => negb (is_blank t)
              | Throw _ => false
              end
  | Throw _ => false
  end.

Definition image_answer (url : JsVal) : JsVal :=
  VObj [("ok", VBool true); ("displayedToUser", VBool true); ("image_url", url)].

Definition image_without_url : JsVal :=
  VObj [("created", VNum 1762077600);
        ("data", VArr [VObj [("b64_json", VStr "iVBORw0KGgo=")]])].

Definition sunset_prompt : JsVal := VObj [("prompt", VStr "a sunset over Berlin")].

(** A scrape proxy that answers with a short page. *)
Definition short_page : Response :=
  {| ok := true; statusText := "OK";
     json := Throw (SyntaxError "Unexpected token '<'");
     text := Normal "<html><body><h1>Berlin</h1></body></html>" |}.
Definition short_pages : Env :=
  {| now := now offline;
     fetch_outcome := fun _ => Normal short_page;
     images_outcome := images_outcome offline;
     cheerio_body_html := fun _ => Normal (Some "<h1>Berlin</h1>");
     turndown_outcome := fun _ => Normal "# Berlin" |}.
Definition example_url : JsVal := VObj [("url", VStr "https://example.com/")].

(** The recorder offering [n] chunks, one after the other. *)
Fixpoint deliver_frames (n : nat) : M unit :=
  match n with
  | O => ret tt
  | S n' => deliver_frame ;; deliver_frames n'
  end.

(** The operations of the session controller, and a sequence of them. *)
Inductive SessionOp :=
| op_connect | op_disconnect | op_startRecording | op_stopRecording
| op_changeTurnEndType (value : string) | op_frame | op_interrupted
| op_event (e : RealtimeEvent).

Definition run_op (op : SessionOp) : M unit :=
  match op with
  | op_connect => connectConversation
  | op_disconnect => disconnectConversation
  | op_startRecording => startRecording
  | op_stopRecording => stopRecording
  | op_changeTurnEndType value => changeTurnEndType value
  | op_frame => deliver_frame
  | op_interrupted => on_conversation_interrupted
  | op_event e => handle_realtime_event e
  end.

Fixpoint run_ops (ops : list SessionOp) : M unit :=
  match ops with
  | [] => ret tt
  | op :: r => run_op op ;; run_ops r
  end.


(** A computation that leaves the memory of the store as it is. *)
Definition keeps_memory {A : Type} (m : M A) : Prop :=
  forall w, memory (after m w) = memory w.

(** A map of flags in which every entry is [true], as the click handler
    builds [expandedEvents] from the empty object. *)
Definition only_true (cells : gmap string bool) : Prop :=
  map_Forall (fun _ v => v = true) cells.

(** A provider that answers with an error status and a JSON body. *)
Definition rate_limited : Response :=
  {| ok := false; statusText := "Too Many Requests";
     json := Normal (VObj [("error", VStr "rate limit")]);
     text := Normal "rate limit" |}.

(** * Properties *)

(** ** The monad *)

Lemma bind_normal {A B : Type} (m : M A) (k : A -> M B) w a w' :
  m w = (Normal a, w') -> bind m k w = k a w'.
Proof. intros H. unfold bind. now rewrite H. Qed.

Lemma bind_throw {A B : Type} (m : M A) (k : A -> M B) w e w' :
  m w = (Throw e, w') -> bind m k w = (Throw e, w').
Proof. intros H. unfold bind. now rewrite H. Qed.

Lemma world_eta (w : World) :
  {| page := page w; memory := memory w; clientRef := clientRef w;
     wavRecorderRef := wavRecorderRef w;
     wavStreamPlayerRef := wavStreamPlayerRef w; trace := trace w |} = w.
Proof. now destruct w. Qed.

(** ** [_onTool] *)

(** A handler that returns: its value, or [{ success: true }] in place
    of [null] and [undefined]. *)
Lemma onTool_returns (args : JsVal) (handler : JsVal -> M JsVal) w v w' :
  handler args w = (Normal v, w') ->
  _onTool args handler w
  = (Normal (if is_nullish v then VObj [("success", VBool true)] else v), w').
Proof.
  intros H. unfold _onTool, try_catch.
  rewrite (bind_normal _ _ _ _ _ H). reflexivity.
Qed.

(** A handler that throws a value other than [null] and [undefined]:
    [{ error: e.message }]. *)
Lemma onTool_catches (args : JsVal) (handler : JsVal -> M JsVal) w e w' :
  handler args w = (Throw e, w') ->
  is_nullish e = false ->
  _onTool args handler w = (Normal (VObj [("error", GetOpt e "message")]), w').
Proof.
  intros H Hn. unfold _onTool, try_catch.
  rewrite (bind_throw _ _ _ _ _ H).
  destruct e; try discriminate Hn; reflexivity.
Qed.

(** A handler that throws [null] or [undefined]: reading [error.message]
    throws inside the [catch] clause. *)
Lemma onTool_escapes (args : JsVal) (handler : JsVal -> M JsVal) w e w' :
  handler args w = (Throw e, w') ->
  is_nullish e = true ->
  exists t, _onTool args handler w = (Throw t, w').
Proof.
  intros H Hn. unfold _onTool, try_catch.
  rewrite (bind_throw _ _ _ _ _ H).
  destruct e; try discriminate Hn; eexists; reflexivity.
Qed.

(** C1 (the code departs from the claim).  The claim: for every handler
    wrapped by [_onTool] and every argument, the call never throws, and a
    handler that throws or rejects gives [{ error: message }].  The code,
    at a handler that rejects with [null] ([async () => { throw null }]):
    the [catch] clause evaluates [error.message] on [null], and the
    TypeError of that read leaves [_onTool]. *)
Theorem onTool_throws_when_handler_throws_null (args : JsVal) (w : World) :
  _onTool args (fun _ => throw VNull) w
  = (Throw (TypeError "Cannot read properties of null (reading 'message')"), w).
Proof. reflexivity. Qed.

(** ** The memory tools *)

Lemma set_memory_run (key value : JsVal) (w : World) :
  set_memory (set_memory_args key value) w
  = (Normal ok_true, set_memory_slice (updateMemory key value) w).
Proof. reflexivity. Qed.

Lemma remove_memory_run (key : JsVal) (w : World) :
  remove_memory (remove_memory_args key) w
  = (Normal ok_true, set_memory_slice (removeMemory key) w).
Proof. reflexivity. Qed.

(** C9.  [remove_memory(k)] after [set_memory(k, v)], on a store that
    had no binding for [k], gives back that store and touches nothing
    else; both calls answer [{ ok: true }].  At the empty store with
    [k = "name"] and [v = "Alex"] the store is empty again. *)
Theorem remove_after_set_restores_store (key value : JsVal) (w : World) :
  memory w !! ToString key = None ->
  let w1 := after (set_memory (set_memory_args key value)) w in
  result (set_memory (set_memory_args key value)) w = Normal ok_true
  /\ memory w1 !! ToString key = Some value
  /\ result (remove_memory (remove_memory_args key)) w1 = Normal ok_true
  /\ after (remove_memory (remove_memory_args key)) w1 = w.
Proof.
  intros Habsent. cbv zeta. unfold result, after.
  rewrite set_memory_run; cbn [fst snd]. rewrite remove_memory_run; cbn [fst snd].
  repeat split.
  - cbn. apply lookup_insert_eq.
  - unfold set_memory_slice, removeMemory, updateMemory; cbn.
    rewrite delete_insert_id by exact Habsent. apply world_eta.
Qed.

Lemma remove_after_set_restores_store_witness :
  memory initial_world !! "name" = None
  /\ memory (after (remove_memory (remove_memory_args (VStr "name")))
               (after (set_memory (set_memory_args (VStr "name") (VStr "Alex")))
                  initial_world)) = ∅.
Proof.
  assert (Habsent : memory initial_world !! "name" = None)
    by (vm_compute; reflexivity).
  split; [exact Habsent |].
  destruct (remove_after_set_restores_store (VStr "name") (VStr "Alex")
              initial_world Habsent) as (_ & _ & _ & H).
  rewrite H. reflexivity.
Defined.

(** ** The event log *)

Lemma same_type_trans a b c :
  same_type a b = true -> same_type b c = same_type a c.
Proof.
  unfold same_type. intros H. apply String.eqb_eq in H. now rewrite H.
Qed.

(** The updater, read from the front of the log. *)
Lemma on_realtime_event_nil e : on_realtime_event e [] = [e].
Proof. reflexivity. Qed.

Lemma on_realtime_event_last e l :
  on_realtime_event e [l]
  = if same_type l e
    then [with_count (Some (default 0%nat (count l) + 1)%nat) l]
    else [l; e].
Proof. reflexivity. Qed.

Lemma on_realtime_event_cons e l l' log :
  on_realtime_event e (l :: l' :: log) = l :: on_realtime_event e (l' :: log).
Proof.
  unfold on_realtime_event.
  change (last (l :: l' :: log)) with (last (l' :: log)).
  change (removelast (l :: l' :: log)) with (l :: removelast (l' :: log)).
  destruct (last (l' :: log)) as [x|]; [destruct (String.eqb _ _)|]; reflexivity.
Qed.

Lemma runs_nil_inv evs : runs evs = [] -> evs = [].
Proof.
  destruct evs as [|e r]; [reflexivity|]. simpl.
  destruct (runs r) as [|[e' g] rs]; [discriminate|].
  destruct (same_type e e'); discriminate.
Qed.

Lemma runs_snoc evs e : runs (evs ++ [e]) = snoc_run e (runs evs).
Proof.
  induction evs as [|x r IH]; [reflexivity|].
  simpl. rewrite IH. clear IH.
  destruct (runs r) as [|[h1 g1] rs]; simpl.
  - destruct (same_type x e); reflexivity.
  - destruct rs as [|r2 rs].
    + destruct (same_type h1 e) eqn:He, (same_type x h1) eqn:Hx; simpl;
        rewrite ?Hx; try reflexivity.
      * rewrite <- (same_type_trans _ _ _ Hx), He. reflexivity.
      * rewrite He. reflexivity.
      * rewrite <- (same_type_trans _ _ _ Hx), He. reflexivity.
      * rewrite He. reflexivity.
    + destruct (same_type x h1); reflexivity.
Qed.

Lemma entry_with_repeats_type r :
  type (event (entry_with_repeats r)) = type (event (fst r)).
Proof. reflexivity. Qed.

Lemma with_count_inbound e : inbound e -> with_count None e = e.
Proof. unfold inbound. destruct e; simpl. now intros ->. Qed.

(** One step of the code on the log of the runs seen so far gives the
    log of the runs extended by the event. *)
Lemma on_realtime_event_runs e rs :
  inbound e ->
  on_realtime_event e (map entry_with_repeats rs)
  = map entry_with_repeats (snoc_run e rs).
Proof.
  intros He. induction rs as [|[h g] rest IH].
  - cbn [map snoc_run]. rewrite on_realtime_event_nil.
    change (entry_with_repeats (e, [])) with (with_count None e).
    now rewrite with_count_inbound.
  - destruct rest as [|r2 rest].
    + cbn [map snoc_run]. rewrite on_realtime_event_last.
      change (same_type (entry_with_repeats (h, g)) e) with (same_type h e).
      destruct (same_type h e); cbn [map].
      * unfold entry_with_repeats, run_length, with_count; cbn [fst snd].
        rewrite length_app. cbn [length time source count event].
        replace (length g + 1)%nat with (S (length g)) by lia.
        destruct g as [|x g]; cbn; [reflexivity|].
        do 3 f_equal. lia.
      * change (entry_with_repeats (e, [])) with (with_count None e).
        now rewrite with_count_inbound.
    + cbn [map]. rewrite on_realtime_event_cons.
      change (entry_with_repeats r2 :: map entry_with_repeats rest)
        with (map entry_with_repeats (r2 :: rest)).
      rewrite IH. reflexivity.
Qed.

Lemma log_of_snoc evs e : log_of (evs ++ [e]) = on_realtime_event e (log_of evs).
Proof. unfold log_of. now rewrite fold_left_app. Qed.

(** The runs are a decomposition of the sequence: put end to end they
    give it back, every event of a run has the type of its first event,
    and two neighbouring runs differ in type. *)
Lemma runs_concat evs : concat (map (fun r => fst r :: snd r) (runs evs)) = evs.
Proof.
  induction evs as [|e r IH]; [reflexivity|]. simpl.
  destruct (runs r) as [|[e' g] rs]; simpl in *.
  - now rewrite <- IH.
  - destruct (same_type e e'); simpl; now rewrite <- IH.
Qed.

Lemma runs_uniform evs :
  Forall (fun r => Forall (fun x => same_type (fst r) x = true) (snd r)) (runs evs).
Proof.
  induction evs as [|e r IH]; simpl; [constructor|].
  destruct (runs r) as [|[e' g] rs]; [repeat constructor|].
  inversion IH as [|? ? Hg Hrs]; subst. simpl in Hg.
  destruct (same_type e e') eqn:E.
  - constructor; [|assumption]. simpl. constructor; [assumption|].
    eapply Forall_impl; [exact Hg|]. simpl. intros x Hx.
    now rewrite <- (same_type_trans _ _ _ E).
  - constructor; [constructor|]. constructor; assumption.
Qed.


Lemma runs_neighbours_differ evs : neighbours_differ (runs evs).
Proof.
  induction evs as [|e r IH]; simpl; [exact I|].
  destruct (runs r) as [|[e' g] rs]; [exact I|].
  destruct (same_type e e') eqn:E.
  - destruct rs as [|[e2 g2] rs]; [exact I|].
    destruct IH as [H1 H2]. split; [|exact H2]. simpl in *.
    now rewrite <- (same_type_trans _ _ _ E).
  - split; [exact E|exact IH].
Qed.

(** C3 (amended).  For a sequence of inbound events, the log holds one
    entry for each maximal run of consecutive events of one type, in the
    order of the runs; the entry is the first event of the run, with the
    counter unset when the run is that single event and equal to the
    number of repeats, run length minus one, otherwise.  Runs are maximal
    ([runs_neighbours_differ]) and partition the sequence in order
    ([runs_concat]), so repeats that are not consecutive stay apart and
    nothing is reordered. *)
Theorem log_is_one_entry_per_run (evs : list RealtimeEvent) :
  Forall inbound evs ->
  log_of evs = map entry_with_repeats (runs evs).
Proof.
  induction evs as [|e evs IH] using rev_ind; intros Hin; [reflexivity|].
  apply Forall_app in Hin as [Hevs He].
  inversion He as [|? ? Hinb _]; subst.
  rewrite log_of_snoc, runs_snoc, IH by assumption.
  now apply on_realtime_event_runs.
Qed.

Lemma log_is_one_entry_per_run_witness :
  Forall inbound [delta_1; delta_2; audio_done; delta_3]
  /\ log_of [delta_1; delta_2; audio_done; delta_3]
     = map entry_with_repeats (runs [delta_1; delta_2; audio_done; delta_3]).
Proof.
  split; [repeat constructor|].
  apply (log_is_one_entry_per_run [delta_1; delta_2; audio_done; delta_3]).
  repeat constructor.
Defined.

(** C3 (as stated, refuted).  Two consecutive events of one type leave a
    single entry whose counter is 1, while the run has length 2. *)
Lemma two_events_counter_is_one :
  log_of [delta_1; delta_2] = [with_count (Some 1%nat) delta_1]
  /\ map run_length (runs [delta_1; delta_2]) = [2%nat]
  /\ ~ log_counts_run_length.
Proof.
  split; [vm_compute; reflexivity|]. split; [vm_compute; reflexivity|].
  intros H. specialize (H [delta_1; delta_2]).
  assert (Hin : Forall inbound [delta_1; delta_2]) by (repeat constructor).
  specialize (H Hin). vm_compute in H. discriminate H.
Qed.

(** ** Tool handlers leave the transport alone *)

Lemma quiet_ret {A : Type} (a : A) : quiet (ret a).
Proof. intros w. split; reflexivity. Qed.

Lemma quiet_throw {A : Type} (e : JsVal) : quiet (@throw A e).
Proof. intros w. split; reflexivity. Qed.

Lemma quiet_lift {A : Type} (c : Completion A) : quiet (lift c).
Proof. intros w. split; reflexivity. Qed.

Lemma quiet_gets {A : Type} (f : World -> A) : quiet (gets f).
Proof. intros w. split; reflexivity. Qed.

Lemma quiet_bind {A B : Type} (m : M A) (k : A -> M B) :
  quiet m -> (forall a, quiet (k a)) -> quiet (bind m k).
Proof.
  intros Hm Hk w. specialize (Hm w). unfold after, bind in *.
  destruct (m w) as [[a|e] w1]; simpl in *; [|exact Hm].
  destruct (Hk a w1) as [H1 H2]. unfold after in *.
  destruct Hm as [Hm1 Hm2]. split; congruence.
Qed.

Lemma quiet_try_catch {A : Type} (body : M A) (handler : JsVal -> M A) :
  quiet body -> (forall e, quiet (handler e)) -> quiet (try_catch body handler).
Proof.
  intros Hm Hk w. specialize (Hm w). unfold after, try_catch in *.
  destruct (body w) as [[a|e] w1]; simpl in *; [exact Hm|].
  destruct (Hk e w1) as [H1 H2]. unfold after in *.
  destruct Hm as [Hm1 Hm2]. split; congruence.
Qed.

Lemma quiet_set_page (f : PageState -> PageState) : quiet (modify (set_page f)).
Proof. intros w. split; reflexivity. Qed.

Lemma quiet_dispatch reducer : quiet (dispatch reducer).
Proof. intros w. split; reflexivity. Qed.

Lemma session_pushes_snoc t e :
  session_pushes (t ++ [e])
  = session_pushes t ++ match e with ClientUpdateSession p => [p] | _ => [] end.
Proof.
  unfold session_pushes. rewrite omap_app. destruct e; reflexivity.
Qed.

Lemma quiet_emit (e : Effect) : pushes_nothing e = true -> quiet (emit e).
Proof.
  intros He w. split; [reflexivity|].
  unfold after, emit, modify, log_effect; simpl.
  rewrite session_pushes_snoc. destruct e; try discriminate He; apply app_nil_r.
Qed.

Lemma quiet_onTool args handler :
  (forall a, quiet (handler a)) -> quiet (_onTool args handler).
Proof.
  intros H. unfold _onTool. apply quiet_try_catch.
  - apply quiet_bind; [apply H | intros; apply quiet_ret].
  - intros e. apply quiet_bind; [apply quiet_lift | intros; apply quiet_ret].
Qed.

Lemma quiet_destructure args k : quiet (destructure args k).
Proof. apply quiet_lift. Qed.

Create HintDb quiet.
#[local] Hint Resolve quiet_destructure quiet_ret quiet_throw quiet_lift quiet_gets
  quiet_set_page quiet_dispatch : quiet.

(** Walks through the body of a handler. *)
Ltac quiet_step :=
  match goal with
  | |- quiet (_onTool _ _) => apply quiet_onTool; intros
  | |- quiet (bind _ _) => apply quiet_bind; [|intros]
  | |- quiet (try_catch _ _) => apply quiet_try_catch; [|intros]
  | |- quiet (emit _) => apply quiet_emit; reflexivity
  | |- quiet (if ?b then _ else _) => destruct b
  | |- quiet (match ?x with _ => _ end) => destruct x
  | |- quiet _ => solve [auto with quiet]
  end.
Ltac quiet_walk := repeat quiet_step.

Lemma tool_handler_quiet env name handler args :
  tool_handler env name = Some handler -> quiet (handler args).
Proof.
  unfold tool_handler. intros H.
  repeat match type of H with
         | (if ?b then _ else _) = _ => destruct b
         end;
    try discriminate H; injection H as <-.
  - unfold set_memory. quiet_walk.
  - unfold remove_memory. quiet_walk.
  - unfold get_time. quiet_walk.
  - unfold show_location, setMarker, setCoords. quiet_walk.
  - unfold show_info, setInformation. quiet_walk.
  - unfold get_weather, fetch, setMarker, setCoords. quiet_walk.
  - unfold generate_image, images_generate, setDisplayedImage. quiet_walk.
  - unfold search_related_topics, fetch. quiet_walk.
  - unfold wikipedia_search, fetch. quiet_walk.
  - unfold webpage_scrape, fetch. quiet_walk.
Qed.

Lemma rerender_after_tool env : rerender env tool_written_cells = (ret tt ;; ret tt).
Proof. reflexivity. Qed.

Lemma agent_tool_call_quiet env name args : quiet (agent_tool_call env name args).
Proof.
  unfold agent_tool_call.
  destruct (tool_handler env name) as [handler|] eqn:E; [|apply quiet_ret].
  intros w. rewrite rerender_after_tool.
  exact (tool_handler_quiet env name handler args E w).
Qed.

Lemma agent_tool_calls_quiet env calls : quiet (agent_tool_calls env calls).
Proof.
  induction calls as [|[name args] r IH]; simpl; [apply quiet_ret|].
  apply quiet_bind; [apply agent_tool_call_quiet | intros; exact IH].
Qed.

(** ** Session configuration *)

Section Setup.
Variable env : Env.

#[local] Arguments instructions_with_memory : simpl never.

(** The pushes of the setup effect, in order. *)
Lemma mount_pushes (w : World) :
  session_pushes (trace (after (mount env) w))
  = session_pushes (trace w)
    ++ [instructions_patch (instructions_with_memory env (memory w));
        transcription_patch "whisper-1";
        voice_patch conversation_config.voice conversation_config.temperature].
Proof.
  destruct w as [pg mem [c|] rec ply tr]; unfold after; cbn;
    rewrite !session_pushes_snoc; cbn; rewrite !app_nil_r, <- !app_assoc;
    reflexivity.
Qed.

Lemma mount_instructions (w : World) :
  held_instructions (after (mount env) w)
  = Some (instructions_with_memory env (memory w)).
Proof. destruct w as [pg mem [c|] rec ply tr]; reflexivity. Qed.

Lemma mount_memory (w : World) : memory (after (mount env) w) = memory w.
Proof. destruct w as [pg mem [c|] rec ply tr]; reflexivity. Qed.
End Setup.

(** C2 (amended).  The session configuration is pushed by the setup
    effect, whose dependency array is empty: once, when the page is
    mounted, with instructions that embed the memory as it is at that
    moment.  The tool calls of the agent, [set_memory] and
    [remove_memory] among them, push nothing and leave the transport as
    it was, so the instructions it holds keep the snapshot taken at
    setup. *)
Theorem configuration_pushed_at_setup_only
    (env : Env) (calls : list (string * JsVal)) (w : World) :
  let w1 := after (mount env) w in
  let w2 := after (agent_tool_calls env calls) w1 in
  session_pushes (trace w1)
  = session_pushes (trace w)
    ++ [instructions_patch (instructions_with_memory env (memory w));
        transcription_patch "whisper-1";
        voice_patch conversation_config.voice conversation_config.temperature]
  /\ held_instructions w1 = Some (instructions_with_memory env (memory w))
  /\ session_pushes (trace w2) = session_pushes (trace w1)
  /\ clientRef w2 = clientRef w1
  /\ held_instructions w2 = Some (instructions_with_memory env (memory w)).
Proof.
  cbv zeta.
  destruct (agent_tool_calls_quiet env calls (after (mount env) w)) as [Hc Hp].
  repeat split.
  - apply mount_pushes.
  - apply mount_instructions.
  - exact Hp.
  - exact Hc.
  - unfold held_instructions. rewrite Hc. apply mount_instructions.
Qed.

(** C2 (as stated, refuted).  The page is mounted with an empty store
    and the agent calls [set_memory("name", "Alex")]: the store holds the
    binding, the instructions in the transport still show an empty
    memory. *)
Lemma instructions_keep_setup_snapshot :
  let calls := [("set_memory", set_memory_args (VStr "name") (VStr "Alex"))] in
  let w' := after (mount offline ;; agent_tool_calls offline calls) initial_world in
  memory w' = <["name" := VStr "Alex"]> ∅
  /\ held_instructions w' = Some (instructions_with_memory offline ∅)
  /\ ~ instructions_follow_memory.
Proof.
  cbv zeta. split; [vm_compute; reflexivity|]. split; [vm_compute; reflexivity|].
  intros H.
  specialize (H offline [("set_memory", set_memory_args (VStr "name") (VStr "Alex"))]
                initial_world).
  assert (Hm : memory_calls [("set_memory", set_memory_args (VStr "name") (VStr "Alex"))]).
  { constructor; [left; reflexivity | constructor]. }
  specialize (H Hm). cbv zeta in H.
  apply (f_equal (fun o => match o with Some s => String.length s | None => 0%nat end)) in H.
  vm_compute in H. discriminate H.
Qed.

(** ** The session controller *)

(** Nothing playing: the player is interrupted, nothing is cancelled,
    recording starts. *)
Lemma startRecording_silent (w : World) (c : Client) :
  clientRef w = Some c ->
  playing (wavStreamPlayerRef w) = None ->
  trace (after startRecording w) = trace w ++ [PlayerInterrupt; RecorderRecord].
Proof.
  destruct w as [pg mem cl rec [ply] tr]; cbn. intros -> ->.
  unfold after; cbn. now rewrite <- !app_assoc.
Qed.




(** C6.  With the client in place: switching to [none] while the
    recorder's status is [recording] pauses the recorder and only then
    pushes the new turn-detection setting, and a chunk that the device
    offers after the switch is not captured; switching to [server_vad]
    while the transport is connected pushes the setting and starts the
    recorder at once, and chunks are captured from then on.  The code
    tests the recorder's status, not the mode the page was in. *)
Theorem changeTurnEndType_pause_before_push (w : World) (c : Client) :
  clientRef w = Some c ->
  (status (wavRecorderRef w) = recording ->
   let w' := after (changeTurnEndType "none") w in
   trace w' = trace w ++ [RecorderPause;
                          ClientUpdateSession (turn_detection_patch TurnNone)]
   /\ status (wavRecorderRef w') = paused
   /\ held_turn_detection w' = Some TurnNone
   /\ canPushToTalk (page w') = true
   /\ trace (after deliver_frame w') = trace w')
  /\ (connected c = true ->
      let w' := after (changeTurnEndType "server_vad") w in
      trace w' = trace w ++ [ClientUpdateSession (turn_detection_patch TurnServerVad);
                             RecorderRecord]
      /\ status (wavRecorderRef w') = recording
      /\ held_turn_detection w' = Some TurnServerVad
      /\ canPushToTalk (page w') = false
      /\ trace (after deliver_frame w') = trace w' ++ [ClientAppendInputAudio]).
Proof.
  destruct w as [pg mem cl [st] ply tr]; cbn. intros ->. split.
  - intros ->. unfold after; cbn. rewrite <- !app_assoc. repeat split.
  - intros Hc. unfold after, changeTurnEndType, when_client, deliver_frame, onFrame,
      client_isConnected, bind, gets; cbn.
    rewrite Hc; cbn. rewrite Hc; cbn. rewrite <- !app_assoc.
    destruct st; repeat split.
Qed.

Lemma changeTurnEndType_pause_before_push_witness :
  (exists c, clientRef listening_world = Some c /\ connected c = true)
  /\ status (wavRecorderRef listening_world) = recording
  /\ trace (after (changeTurnEndType "none") listening_world)
     = trace listening_world
       ++ [RecorderPause; ClientUpdateSession (turn_detection_patch TurnNone)]
  /\ trace (after (changeTurnEndType "server_vad") connected_world)
     = trace connected_world
       ++ [ClientUpdateSession (turn_detection_patch TurnServerVad); RecorderRecord].
Proof.
  split; [eexists; split; vm_compute; reflexivity|].
  split; [vm_compute; reflexivity|]. split.
  - refine (proj1 (proj1 (changeTurnEndType_pause_before_push listening_world _ _) _)).
    + vm_compute. reflexivity.
    + vm_compute. reflexivity.
  - refine (proj1 (proj2 (changeTurnEndType_pause_before_push connected_world _ _) _)).
    + vm_compute. reflexivity.
    + vm_compute. reflexivity.
Defined.

(** C7.  With the client in place, disconnecting closes the transport,
    ends the recorder and interrupts the player, in that order; the event
    log and the transcript are emptied, the marker is cleared and the
    coordinates are the default ones again; the memory of the store is
    what it was. *)
Theorem disconnect_resets_session_keeps_memory (w : World) (c : Client) :
  clientRef w = Some c ->
  let w' := after disconnectConversation w in
  trace w' = trace w ++ [ClientDisconnect; RecorderEnd; PlayerInterrupt]
  /\ transport_connected w' = false
  /\ status (wavRecorderRef w') = ended
  /\ playing (wavStreamPlayerRef w') = None
  /\ realtimeEvents (page w') = []
  /\ items (page w') = []
  /\ marker (page w') = None
  /\ coords (page w') = Some default_coords
  /\ isConnected (page w') = false
  /\ memory w' = memory w.
Proof.
  destruct w as [pg mem cl rec ply tr]; cbn. intros ->.
  unfold after; cbn. rewrite <- !app_assoc. repeat split.
Qed.

Lemma disconnect_resets_session_keeps_memory_witness :
  (exists c, clientRef busy_world = Some c)
  /\ memory busy_world = <["name" := VStr "Alex"]> ∅
  /\ memory (after disconnectConversation busy_world) = <["name" := VStr "Alex"]> ∅
  /\ marker (page (after disconnectConversation busy_world)) = None.
Proof.
  split; [eexists; vm_compute; reflexivity|].
  assert (Hbusy : memory busy_world = <["name" := VStr "Alex"]> ∅)
    by (vm_compute; reflexivity).
  split; [exact Hbusy|].
  assert (Hc : exists c, clientRef busy_world = Some c)
    by (eexists; vm_compute; reflexivity).
  destruct Hc as [c Hc].
  destruct (disconnect_resets_session_keeps_memory busy_world c Hc)
    as (_ & _ & _ & _ & _ & _ & Hmarker & _ & _ & Hmem).
  split; [rewrite Hmem; exact Hbusy | exact Hmarker].
Defined.

(** ** Strings *)

Lemma string_length_ind (P : string -> Prop) :
  (forall s, (forall t, (String.length t < String.length s)%nat -> P t) -> P s) ->
  forall s, P s.
Proof.
  intros H s.
  assert (G : forall n t, (String.length t < n)%nat -> P t).
  { induction n as [|n IH]; intros t Ht; [lia|].
    apply H. intros u Hu. apply IH. lia. }
  apply (G (S (String.length s))). lia.
Qed.

Lemma trimStart_blank s : is_blank s = true -> trimStart s = EmptyString.
Proof.
  induction s as [s IH] using string_length_ind.
  destruct s as [|c1 r1]; [reflexivity|]. cbn [is_blank trimStart].
  destruct (white1 c1); [intros H; apply IH; [simpl; lia | exact H]|].
  destruct r1 as [|c2 r2]; [discriminate|].
  destruct (white2 c1 c2); [intros H; apply IH; [simpl; lia | exact H]|].
  destruct r2 as [|c3 r3]; [discriminate|].
  destruct (white3 c1 c2 c3); [intros H; apply IH; [simpl; lia | exact H]|].
  discriminate.
Qed.

(** A string of white space trims to the empty string. *)
Lemma trim_blank s : is_blank s = true -> trim s = EmptyString.
Proof. intros H. unfold trim. now rewrite trimStart_blank. Qed.

Lemma Get_not_nullish v k : is_nullish v = false -> Get v k = Normal (GetOpt v k).
Proof. destruct v; try discriminate; reflexivity. Qed.

Lemma destructure_not_nullish args k w :
  is_nullish args = false -> destructure args k w = (Normal (GetOpt args k), w).
Proof. intros H. unfold destructure, lift. now rewrite Get_not_nullish. Qed.

(** ** The provider-backed tools *)

#[local] Opaque scrape_url related_topics_url wikipedia_api_url weather_url.

Lemma webpage_scrape_run env args w :
  is_nullish args = false ->
  webpage_scrape env args w
  = let w1 := log_effect (FetchCall (scrape_url (GetOpt args "url"))) w in
    match fetch_outcome env (scrape_url (GetOpt args "url")) with
    | Throw _ => (Normal (failure "Error scraping webpage"), w1)
    | Normal response =>
        if ok response then
          match text response with
          | Throw _ => (Normal (failure "Error scraping webpage"), w1)
          | Normal htmlContent =>
              if String.eqb (trim htmlContent) EmptyString then
                (Normal (failure "No text content found on the webpage"), w1)
              else
                let w2 := log_effect CheerioLoad w1 in
                match cheerio_body_html env htmlContent with
                | Throw _ => (Normal (failure "Error scraping webpage"), w2)
                | Normal body =>
                    let w3 := log_effect TurndownCall w2 in
                    match turndown_outcome env (default EmptyString body) with
                    | Throw _ => (Normal (failure "Error scraping webpage"), w3)
                    | Normal markdownContent =>
                        (Normal (VObj [("ok", VBool true);
                                       ("markdownContent", VStr markdownContent)]),
                         w3)
                    end
                end
          end
        else (Normal (failure "Error scraping webpage"), w1)
    end.
Proof.
  intros Hargs. unfold webpage_scrape.
  rewrite (bind_normal _ _ _ _ _ (destructure_not_nullish args "url" w Hargs)).
  unfold try_catch, fetch, bind, emit, modify, lift, throw, ret. cbv zeta.
  destruct (fetch_outcome env _) as [response|e]; [|reflexivity].
  destruct (ok response); [|reflexivity].
  destruct (text response) as [html|e]; [|reflexivity].
  destruct (String.eqb (trim html) EmptyString); [reflexivity|].
  destruct (cheerio_body_html env html) as [body|e]; [|reflexivity].
  destruct (turndown_outcome env _) as [md|e]; reflexivity.
Qed.

(** C8.  The scrape collaborator answers with a success whose body is
    empty or made of white space only: [webpage_scrape] returns
    [{ ok: false, message: "No text content found on the webpage" }];
    the request to the collaborator is the only call it has made, so
    neither the HTML parser nor the Markdown converter has run. *)
Theorem webpage_scrape_blank_body
    (env : Env) (args : JsVal) (w : World) (response : Response) (body : string) :
  is_nullish args = false ->
  fetch_outcome env (scrape_url (GetOpt args "url")) = Normal response ->
  ok response = true ->
  text response = Normal body ->
  is_blank body = true ->
  result (webpage_scrape env args) w
  = Normal (failure "No text content found on the webpage")
  /\ after (webpage_scrape env args) w
     = log_effect (FetchCall (scrape_url (GetOpt args "url"))) w
  /\ trace (after (webpage_scrape env args) w)
     = trace w ++ [FetchCall (scrape_url (GetOpt args "url"))].
Proof.
  intros Hargs Hfetch Hok Htext Hblank. unfold result, after.
  rewrite webpage_scrape_run by exact Hargs. cbv zeta.
  rewrite Hfetch, Hok, Htext, (trim_blank _ Hblank). cbn. repeat split.
Qed.

Lemma webpage_scrape_blank_body_witness :
  let args := VObj [("url", VStr "https://example.com/")] in
  is_nullish args = false
  /\ fetch_outcome blank_pages (scrape_url (GetOpt args "url")) = Normal blank_page
  /\ ok blank_page = true
  /\ is_blank (String "032"%char (String "010"%char (String "009"%char EmptyString)))
     = true
  /\ result (webpage_scrape blank_pages args) initial_world
     = Normal (failure "No text content found on the webpage").
Proof.
  cbv zeta. repeat (split; [vm_compute; reflexivity|]).
  refine (proj1 (webpage_scrape_blank_body blank_pages
                   (VObj [("url", VStr "https://example.com/")]) initial_world
                   blank_page _ _ _ _ _ _)); vm_compute; reflexivity.
Defined.

Lemma search_related_topics_run env args w :
  is_nullish args = false ->
  search_related_topics env args w
  = let url := related_topics_url (GetOpt args "query") in
    (Normal
       match (response <-- fetch_outcome env url ;;
              data <-- json response ;;
              collect_related_topics data) with
       | Normal (x :: r) =>
           VObj [("ok", VBool true); ("relatedTopics", VArr (x :: r))]
       | Normal [] => failure "No related topics found"
       | Throw _ => failure "Error retrieving related topics"
       end,
     log_effect (FetchCall url) w).
Proof.
  intros Hargs.
  unfold search_related_topics, _onTool, try_catch, fetch, bind, emit, modify,
    lift, ret, cbind.
  rewrite destructure_not_nullish by exact Hargs. cbv zeta.
  destruct (fetch_outcome env _) as [response|e]; [|reflexivity].
  destruct (json response) as [data|e]; [|reflexivity].
  destruct (collect_related_topics data) as [[|x r]|e]; reflexivity.
Qed.

Lemma wikipedia_search_run env args w :
  is_nullish args = false ->
  wikipedia_search env args w
  = let url := wikipedia_api_url (language_of args) (GetOpt args "query") in
    (Normal
       match (response <-- fetch_outcome env url ;;
              data <-- json response ;;
              search_results (language_of args) data) with
       | Normal (Some (x :: r)) =>
           VObj [("ok", VBool true); ("searchResults", VArr (x :: r))]
       | Normal _ => failure "No search results found"
       | Throw _ => failure "Error searching Wikipedia"
       end,
     log_effect (FetchCall url) w).
Proof.
  intros Hargs.
  unfold wikipedia_search, try_catch, fetch, bind, emit, modify, lift, ret, cbind.
  rewrite !destructure_not_nullish by exact Hargs. cbv zeta.
  unfold language_of.
  destruct (fetch_outcome env _) as [response|e]; [|reflexivity].
  destruct (json response) as [data|e]; [|reflexivity].
  destruct (search_results _ data) as [[[|x r]|]|e]; reflexivity.
Qed.



Lemma failure_in_common_shape message : in_common_shape (failure message).
Proof. right. now exists message. Qed.

Lemma success_in_common_shape data :
  in_common_shape (VObj (("ok", VBool true) :: data)).
Proof. left. now exists data. Qed.

#[local] Hint Resolve failure_in_common_shape success_in_common_shape : quiet.




(** ** The proxy server *)

(** The parameter each route requires. *)
Lemma proxy_route_requires_q net req_query :
  assoc "q" req_query = None ->
  ProxyServer.proxy_route net req_query
  = bad_request "q".
Proof.
  intros H. unfold ProxyServer.proxy_route, ProxyServer.query_param.
  rewrite H. reflexivity.
Qed.

Lemma scrape_route_requires_url net req_query :
  assoc "url" req_query = None ->
  ProxyServer.scrape_route net req_query
  = bad_request "url".
Proof.
  intros H. unfold ProxyServer.scrape_route, ProxyServer.query_param.
  rewrite H. reflexivity.
Qed.

Lemma proxy_route_contact net req_query :
  ProxyServer.contacted (ProxyServer.proxy_route net req_query) <> [] ->
  exists v, assoc "q" req_query = Some v /\ ToBoolean v = true.
Proof.
  unfold ProxyServer.proxy_route, ProxyServer.query_param.
  destruct (assoc "q" req_query) as [v|]; simpl.
  - destruct (ToBoolean v) eqn:E; simpl; intros H.
    + exists v. split; [reflexivity | exact E].
    + exfalso. apply H. reflexivity.
  - intros H. exfalso. apply H. reflexivity.
Qed.

Lemma scrape_route_contact net req_query :
  ProxyServer.contacted (ProxyServer.scrape_route net req_query) <> [] ->
  exists v, assoc "url" req_query = Some v /\ ToBoolean v = true.
Proof.
  unfold ProxyServer.scrape_route, ProxyServer.query_param.
  destruct (assoc "url" req_query) as [v|]; simpl.
  - destruct (ToBoolean v) eqn:E; simpl; intros H.
    + exists v. split; [reflexivity | exact E].
    + exfalso. apply H. reflexivity.
  - intros H. exfalso. apply H. reflexivity.
Qed.

(** C10.  A GET request to [/proxy] without [q], or to [/scrape] without
    [url], is answered with status 400 and the text that names the
    parameter, and the provider has not been contacted; whenever a route
    contacts the provider, the request carried the parameter. *)
Theorem proxy_requires_parameter
    (net : string -> Completion Response) (path name : string)
    (req_query : list (string * JsVal)) :
  required_parameter path = Some name ->
  (assoc name req_query = None ->
   ProxyServer.get net path req_query = Some (bad_request name))
  /\ (forall h, ProxyServer.get net path req_query = Some h ->
                ProxyServer.contacted h <> [] ->
                exists v, assoc name req_query = Some v /\ ToBoolean v = true).
Proof.
  unfold required_parameter, ProxyServer.get.
  destruct (String.eqb path "/proxy").
  - intros [= <-]. split.
    + intros H. now rewrite proxy_route_requires_q.
    + intros h [= <-]. apply proxy_route_contact.
  - destruct (String.eqb path "/scrape"); [|discriminate].
    intros [= <-]. split.
    + intros H. now rewrite scrape_route_requires_url.
    + intros h [= <-]. apply scrape_route_contact.
Qed.

Lemma proxy_requires_parameter_witness :
  required_parameter "/proxy" = Some "q"
  /\ assoc "q" [("format", VStr "json")] = None
  /\ ProxyServer.get unreachable "/proxy" [("format", VStr "json")]
     = Some (bad_request "q")
  /\ required_parameter "/scrape" = Some "url"
  /\ assoc "url" (@nil (string * JsVal)) = None
  /\ ProxyServer.get unreachable "/scrape" [] = Some (bad_request "url").
Proof.
  split; [reflexivity|]. split; [reflexivity|]. split.
  - exact (proj1 (proxy_requires_parameter unreachable "/proxy" "q"
                    [("format", VStr "json")] eq_refl) eq_refl).
  - split; [reflexivity|]. split; [reflexivity|].
    exact (proj1 (proxy_requires_parameter unreachable "/scrape" "url" [] eq_refl)
             eq_refl).
Defined.

(** * Further properties of the code *)

(** ** The event log, continued *)

Lemma on_realtime_event_head e l log :
  exists h t, on_realtime_event e (l :: log) = h :: t
              /\ type (event h) = type (event l).
Proof.
  destruct log as [|l' log].
  - rewrite on_realtime_event_last. destruct (same_type l e); eauto.
  - rewrite on_realtime_event_cons. eauto.
Qed.

Lemma on_realtime_event_alternate e log :
  types_alternate log -> types_alternate (on_realtime_event e log).
Proof.
  induction log as [|l log IH]; intros H; [exact I|].
  destruct log as [|l' log].
  - rewrite on_realtime_event_last.
    destruct (same_type l e) eqn:E; [exact I|]. split; [exact E | exact I].
  - rewrite on_realtime_event_cons. destruct H as [Hl Hrest].
    specialize (IH Hrest).
    destruct (on_realtime_event_head e l' log) as (h & t & Heq & Hty).
    rewrite Heq in *. split; [|exact IH].
    unfold same_type in *. now rewrite Hty.
Qed.

(** X1.  Whatever events arrive, no two neighbouring entries of the log
    have the same type. *)
Theorem log_neighbours_differ_in_type (evs : list RealtimeEvent) :
  types_alternate (log_of evs).
Proof.
  induction evs as [|e evs IH] using rev_ind; [exact I|].
  rewrite log_of_snoc. now apply on_realtime_event_alternate.
Qed.

Lemma list_sum_cons (a : nat) (l : list nat) :
  list_sum (a :: l) = (a + list_sum l)%nat.
Proof. reflexivity. Qed.

Lemma on_realtime_event_tally e log :
  inbound e ->
  list_sum (map tally (on_realtime_event e log)) = S (list_sum (map tally log)).
Proof.
  intros He. induction log as [|l log IH].
  - cbn. unfold tally. rewrite He. reflexivity.
  - destruct log as [|l' log].
    + rewrite on_realtime_event_last. destruct (same_type l e).
      * unfold tally; cbn. lia.
      * cbn. unfold tally. rewrite He. cbn. lia.
    + rewrite on_realtime_event_cons.
      change (map tally (l :: on_realtime_event e (l' :: log)))
        with (tally l :: map tally (on_realtime_event e (l' :: log))).
      change (map tally (l :: l' :: log)) with (tally l :: map tally (l' :: log)).
      rewrite !list_sum_cons, IH. lia.
Qed.

(** X2.  The log loses no event: for events that arrive without a
    counter, the entries stand for as many events as have arrived, an
    entry standing for one event plus its counter. *)
Theorem log_tallies_every_event (evs : list RealtimeEvent) :
  Forall inbound evs ->
  list_sum (map tally (log_of evs)) = length evs.
Proof.
  induction evs as [|e evs IH] using rev_ind; intros Hin; [reflexivity|].
  apply Forall_app in Hin as [Hevs He]. inversion He as [|? ? Hinb _]; subst.
  rewrite log_of_snoc, on_realtime_event_tally, IH by assumption.
  rewrite length_app. cbn. lia.
Qed.

Lemma log_tallies_every_event_witness :
  Forall inbound [delta_1; delta_2; audio_done; delta_3]
  /\ list_sum (map tally (log_of [delta_1; delta_2; audio_done; delta_3])) = 4%nat.
Proof.
  split; [repeat constructor|].
  apply (log_tallies_every_event [delta_1; delta_2; audio_done; delta_3]).
  repeat constructor.
Defined.

Lemma append_empty_r (s : string) : s +:+ EmptyString = s.
Proof.
  induction s as [|c s IH]; [reflexivity|].
  change (String c s +:+ EmptyString) with (String c (s +:+ EmptyString)).
  now rewrite IH.
Qed.

Lemma on_realtime_event_counters e log :
  inbound e ->
  Forall (fun entry => count entry <> Some 0%nat) log ->
  Forall (fun entry => count entry <> Some 0%nat) (on_realtime_event e log).
Proof.
  intros He. induction log as [|l log IH]; intros H.
  - rewrite on_realtime_event_nil. constructor; [|constructor].
    rewrite He. discriminate.
  - inversion H as [|? ? Hl Hlog]; subst. destruct log as [|l' log].
    + rewrite on_realtime_event_last. destruct (same_type l e).
      * constructor; [|constructor]. cbn. intros [= E]. lia.
      * constructor; [exact Hl|]. constructor; [|constructor].
        rewrite He. discriminate.
    + rewrite on_realtime_event_cons. constructor; [exact Hl|]. now apply IH.
Qed.

(** X3.  For events that arrive without a counter, the counter of a log
    entry is never 0: the label of an entry is its type alone, or its
    type followed by a positive number between brackets. *)
Theorem log_labels_show_no_zero (evs : list RealtimeEvent) :
  Forall inbound evs ->
  Forall (fun entry =>
            event_label entry = type (event entry)
            \/ exists n, count entry = Some (S n)
                         /\ event_label entry
                            = type (event entry) +:+ " (" +:+ pretty (S n) +:+ ")")
    (log_of evs).
Proof.
  intros Hin.
  assert (Hc : Forall (fun entry => count entry <> Some 0%nat) (log_of evs)).
  { induction evs as [|e evs IH] using rev_ind; [constructor|].
    apply Forall_app in Hin as [Hevs He]. inversion He as [|? ? Hinb _]; subst.
    rewrite log_of_snoc. apply on_realtime_event_counters; auto. }
  eapply Forall_impl; [exact Hc|]. intros entry Hentry. cbv beta in Hentry.
  unfold event_label. destruct (count entry) as [[|n]|].
  - now contradiction Hentry.
  - right. exists n. split; reflexivity.
  - left. apply append_empty_r.
Qed.

Lemma log_labels_show_no_zero_witness :
  Forall inbound [delta_1; delta_2; audio_done]
  /\ map event_label (log_of [delta_1; delta_2; audio_done])
     = ["response.audio.delta (1)"; "response.audio.done"]
  /\ Forall (fun entry =>
               event_label entry = type (event entry)
               \/ exists n, count entry = Some (S n)
                            /\ event_label entry
                               = type (event entry) +:+ " (" +:+ pretty (S n) +:+ ")")
       (log_of [delta_1; delta_2; audio_done]).
Proof.
  split; [repeat constructor|]. split; [vm_compute; reflexivity|].
  apply (log_labels_show_no_zero [delta_1; delta_2; audio_done]).
  repeat constructor.
Defined.

(** ** [_onTool], continued *)

(** X4.  [_onTool] adds no effect of its own: the state it leaves is the
    state the handler left, also when the handler threw.  Its outcome is
    the handler's value ([{ success: true }] in place of [null] and
    [undefined]) or [{ error: e.message }] for a thrown [e]; it throws
    only where the thrown value is itself [null] or [undefined]. *)
Theorem onTool_keeps_handler_state
    (args : JsVal) (handler : JsVal -> M JsVal) (w : World) :
  after (_onTool args handler) w = after (handler args) w
  /\ match result (handler args) w with
     | Normal v =>
         result (_onTool args handler) w
         = Normal (if is_nullish v then VObj [("success", VBool true)] else v)
     | Throw e =>
         if is_nullish e
         then exists t, result (_onTool args handler) w = Throw t
         else result (_onTool args handler) w
              = Normal (VObj [("error", GetOpt e "message")])
     end.
Proof.
  unfold after, result.
  destruct (handler args w) as [[v|e] w'] eqn:H; cbn [fst snd].
  - rewrite (onTool_returns _ _ _ _ _ H). split; reflexivity.
  - destruct (is_nullish e) eqn:Hn.
    + destruct (onTool_escapes _ _ _ _ _ H Hn) as [t Ht]. rewrite Ht.
      split; [reflexivity | now exists t].
    + rewrite (onTool_catches _ _ _ _ _ H Hn). split; reflexivity.
Qed.

(** ** The memory tools, continued *)

(** X5.  [remove_memory] of a key the store does not hold answers
    [{ ok: true }] and changes nothing at all. *)
Theorem remove_memory_absent_key (key : JsVal) (w : World) :
  memory w !! ToString key = None ->
  result (remove_memory (remove_memory_args key)) w = Normal ok_true
  /\ after (remove_memory (remove_memory_args key)) w = w.
Proof.
  intros Habsent. unfold result, after. rewrite remove_memory_run. cbn [fst snd].
  split; [reflexivity|].
  unfold set_memory_slice, removeMemory. rewrite delete_id by exact Habsent.
  apply world_eta.
Qed.

Lemma remove_memory_absent_key_witness :
  memory initial_world !! ToString (VStr "city") = None
  /\ after (remove_memory (remove_memory_args (VStr "city"))) initial_world
     = initial_world.
Proof.
  assert (H : memory initial_world !! ToString (VStr "city") = None)
    by (vm_compute; reflexivity).
  split; [exact H|].
  exact (proj2 (remove_memory_absent_key (VStr "city") initial_world H)).
Defined.


(** X7.  Called with [null] or [undefined] in place of the argument
    object, [set_memory] and [remove_memory] answer with an error object
    and leave everything as it was. *)
Theorem memory_tools_reject_missing_arguments (args : JsVal) (w : World) :
  is_nullish args = true ->
  (exists message, result (set_memory args) w = Normal (VObj [("error", VStr message)]))
  /\ after (set_memory args) w = w
  /\ (exists message,
        result (remove_memory args) w = Normal (VObj [("error", VStr message)]))
  /\ after (remove_memory args) w = w.
Proof.
  intros H. destruct args; try discriminate H;
    (split; [eexists; reflexivity|]); (split; [reflexivity|]);
    (split; [eexists; reflexivity|]); reflexivity.
Qed.

Lemma memory_tools_reject_missing_arguments_witness :
  is_nullish VUndefined = true
  /\ result (set_memory VUndefined) initial_world
     = Normal (VObj [("error",
                      VStr "Cannot read properties of undefined (reading 'key')")])
  /\ after (set_memory VUndefined) initial_world = initial_world.
Proof.
  split; [reflexivity|].
  split; [vm_compute; reflexivity|].
  exact (proj1 (proj2 (memory_tools_reject_missing_arguments VUndefined initial_world
                         eq_refl))).
Defined.



(** ** Loops whose callback does not throw *)

Lemma map_throwing_total {A B : Type} (f : A -> Completion B) (g : A -> B) xs :
  Forall (fun x => f x = Normal (g x)) xs ->
  map_throwing f xs = Normal (map g xs).
Proof.
  induction 1 as [|x xs Hx _ IH]; [reflexivity|].
  cbn. rewrite Hx. cbn. rewrite IH. reflexivity.
Qed.

Lemma filter_throwing_total {A : Type} (p : A -> Completion bool) (q : A -> bool) xs :
  Forall (fun x => p x = Normal (q x)) xs ->
  filter_throwing p xs = Normal (List.filter q xs).
Proof.
  induction 1 as [|x xs Hx _ IH]; [reflexivity|].
  cbn. rewrite Hx. cbn. rewrite IH. cbn. reflexivity.
Qed.

(** The first throw ends the loop. *)
Lemma map_throwing_throws {A B : Type} (f : A -> Completion B) xs x ys e :
  Forall (fun y => exists v, f y = Normal v) xs ->
  f x = Throw e ->
  map_throwing f (xs ++ x :: ys) = Throw e.
Proof.
  intros Hxs Hx. induction Hxs as [|y xs [v Hy] _ IH]; cbn.
  - now rewrite Hx.
  - rewrite Hy. cbn. now rewrite IH.
Qed.

(** ** [search_related_topics], continued *)

Lemma has_url_and_text_readable t :
  is_nullish t = false -> has_url_and_text t = Normal (topic_kept t).
Proof.
  intros H. unfold has_url_and_text, topic_kept.
  rewrite !Get_not_nullish by exact H. cbn.
  destruct (ToBoolean (GetOpt t "FirstURL")); reflexivity.
Qed.

Lemma topic_entry_readable t :
  is_nullish t = false -> topic_entry t = Normal (topic_shown t).
Proof.
  intros H. unfold topic_entry. rewrite !Get_not_nullish by exact H. reflexivity.
Qed.

Lemma Forall_filter_keeps {A : Type} (P : A -> Prop) (q : A -> bool) xs :
  Forall P xs -> Forall P (List.filter q xs).
Proof.
  induction 1 as [|x xs Hx _ IH]; cbn; [constructor|].
  destruct (q x); [constructor|]; assumption.
Qed.

Lemma related_topic_readable t :
  readable_topic t -> related_topic t = Normal (topics_shown t).
Proof.
  intros [Hn Hsub]. unfold related_topic, topics_shown.
  rewrite !Get_not_nullish by exact Hn. cbn [cbind].
  destruct (ToBoolean (GetOpt t "Topics")) eqn:E.
  - destruct (Hsub eq_refl) as (subs & -> & Hsubs).
    rewrite (filter_throwing_total _ topic_kept).
    + cbn [cbind]. rewrite (map_throwing_total _ topic_shown); [reflexivity|].
      apply Forall_filter_keeps.
      eapply Forall_impl; [exact Hsubs|]. intros s Hs. now apply topic_entry_readable.
    + eapply Forall_impl; [exact Hsubs|]. intros s Hs.
      now apply has_url_and_text_readable.
  - rewrite has_url_and_text_readable by exact Hn. cbn [cbind].
    destruct (topic_kept t); [|reflexivity].
    rewrite topic_entry_readable by exact Hn. reflexivity.
Qed.

(** X9.  When the instant-answer provider returns an array of readable
    topics, [search_related_topics] lists, in the order received, every
    topic that has both a URL and a text, and every category with those
    of its sub-topics that have both; topics with neither are dropped.
    The answer is [{ ok: true, relatedTopics }] when that list is not
    empty and [{ ok: false, message: "No related topics found" }] when
    it is.  The HTTP status of the response is not looked at. *)
Theorem search_related_topics_lists_kept_topics
    (env : Env) (args : JsVal) (w : World)
    (response : Response) (data : JsVal) (topics : list JsVal) :
  is_nullish args = false ->
  fetch_outcome env (related_topics_url (GetOpt args "query")) = Normal response ->
  json response = Normal data ->
  GetOpt data "RelatedTopics" = VArr topics ->
  Forall readable_topic topics ->
  result (search_related_topics env args) w
  = Normal match concat (map topics_shown topics) with
           | [] => failure "No related topics found"
           | shown => VObj [("ok", VBool true); ("relatedTopics", VArr shown)]
           end.
Proof.
  intros Hargs Hfetch Hjson Hrt Htopics. unfold result.
  rewrite search_related_topics_run by exact Hargs. cbv zeta. cbn [fst].
  rewrite Hfetch. cbn [cbind]. rewrite Hjson. cbn [cbind].
  assert (Hdata : is_nullish data = false).
  { destruct data; try reflexivity; discriminate Hrt. }
  unfold collect_related_topics. rewrite Get_not_nullish by exact Hdata.
  cbn [cbind]. rewrite Hrt. cbn [is_nullish].
  rewrite (map_throwing_total _ topics_shown).
  - cbn [cbind]. destruct (concat (map topics_shown topics)); reflexivity.
  - eapply Forall_impl; [exact Htopics|]. intros t Ht.
    now apply related_topic_readable.
Qed.

Lemma instant_answer_readable :
  Forall readable_topic
    [VObj [("FirstURL", VStr "https://duckduckgo.com/Berlin");
           ("Text", VStr "Berlin, capital of Germany")];
     VObj [("Text", VStr "no link")];
     VObj [("Name", VStr "Places");
           ("Topics",
            VArr [VObj [("FirstURL", VStr "https://duckduckgo.com/Berlin,_NH");
                        ("Text", VStr "Berlin, New Hampshire")]])]].
Proof.
  repeat constructor; try discriminate.
  intros _. eexists. split; [reflexivity|]. repeat constructor.
Qed.

Lemma search_related_topics_lists_kept_topics_witness :
  is_nullish berlin_query = false
  /\ Forall readable_topic
       [VObj [("FirstURL", VStr "https://duckduckgo.com/Berlin");
              ("Text", VStr "Berlin, capital of Germany")];
        VObj [("Text", VStr "no link")];
        VObj [("Name", VStr "Places");
              ("Topics",
               VArr [VObj [("FirstURL", VStr "https://duckduckgo.com/Berlin,_NH");
                           ("Text", VStr "Berlin, New Hampshire")]])]]
  /\ result (search_related_topics (answering instant_answer) berlin_query)
       initial_world
     = Normal
         (VObj [("ok", VBool true);
                ("relatedTopics",
                 VArr [VObj [("title", VStr "Berlin, capital of Germany");
                             ("url", VStr "https://duckduckgo.com/Berlin");
                             ("snippet", VStr "Berlin, capital of Germany");
                             ("icon_url", VNull)];
                       VObj [("category", VStr "Places");
                             ("topics",
                              VArr [VObj [("title", VStr "Berlin, New Hampshire");
                                          ("url", VStr "https://duckduckgo.com/Berlin,_NH");
                                          ("snippet", VStr "Berlin, New Hampshire");
                                          ("icon_url", VNull)]])]])]).
Proof.
  split; [reflexivity|]. split; [exact instant_answer_readable|].
  exact (search_related_topics_lists_kept_topics (answering instant_answer)
           berlin_query initial_world (json_response instant_answer) instant_answer _
           eq_refl eq_refl eq_refl eq_refl instant_answer_readable).
Defined.

(** X10.  One element of [RelatedTopics] that is [null] spoils the whole
    answer: the topics read before it are discarded and the tool answers
    [{ ok: false, message: "Error retrieving related topics" }]. *)
Theorem search_related_topics_null_topic
    (env : Env) (args : JsVal) (w : World)
    (response : Response) (data : JsVal) (before rest : list JsVal) :
  is_nullish args = false ->
  fetch_outcome env (related_topics_url (GetOpt args "query")) = Normal response ->
  json response = Normal data ->
  GetOpt data "RelatedTopics" = VArr (before ++ VNull :: rest) ->
  Forall readable_topic before ->
  result (search_related_topics env args) w
  = Normal (failure "Error retrieving related topics").
Proof.
  intros Hargs Hfetch Hjson Hrt Hbefore. unfold result.
  rewrite search_related_topics_run by exact Hargs. cbv zeta. cbn [fst].
  rewrite Hfetch. cbn [cbind]. rewrite Hjson. cbn [cbind].
  assert (Hdata : is_nullish data = false).
  { destruct data; try reflexivity; discriminate Hrt. }
  unfold collect_related_topics. rewrite Get_not_nullish by exact Hdata.
  cbn [cbind]. rewrite Hrt. cbn [is_nullish].
  erewrite map_throwing_throws; [reflexivity| |reflexivity].
  eapply Forall_impl; [exact Hbefore|]. intros t Ht.
  eexists. now apply related_topic_readable.
Qed.

Lemma search_related_topics_null_topic_witness :
  is_nullish berlin_query = false
  /\ result (search_related_topics (answering spoiled_answer) berlin_query)
       initial_world
     = Normal (failure "Error retrieving related topics").
Proof.
  split; [reflexivity|].
  refine (search_related_topics_null_topic (answering spoiled_answer)
            berlin_query initial_world (json_response spoiled_answer) spoiled_answer
            [VObj [("FirstURL", VStr "https://duckduckgo.com/Berlin");
                   ("Text", VStr "Berlin, capital of Germany")]] []
            eq_refl eq_refl eq_refl eq_refl _).
  repeat constructor; discriminate.
Defined.

(** ** [wikipedia_search], continued *)

Lemma strip_tags_from_no_opening (in_tag : bool) (s : string) :
  occurs "<" (strip_tags_from in_tag s) = false.
Proof.
  revert in_tag. induction s as [|c s IH]; intros in_tag; [reflexivity|].
  cbn [strip_tags_from]. destruct in_tag; [apply IH|].
  destruct (Ascii.eqb c "<") eqn:E; [apply IH|].
  cbn [occurs]. rewrite IH, Ascii.eqb_sym, E. reflexivity.
Qed.

Lemma strip_tags_unchanged (s : string) :
  occurs "<" s = false -> strip_tags_from false s = s.
Proof.
  induction s as [|c s IH]; [reflexivity|]. cbn [occurs strip_tags_from].
  rewrite Ascii.eqb_sym. destruct (Ascii.eqb c "<"); [discriminate|].
  cbn. intros H. now rewrite IH.
Qed.

(** X11.  The snippet filter [replace(/<[^>]*>?/gm, '')] leaves no [<]
    in its result, and applying it again changes nothing. *)
Theorem strip_tags_leaves_no_opening_bracket (s : string) :
  occurs "<" (strip_tags s) = false
  /\ strip_tags (strip_tags s) = strip_tags s.
Proof.
  split; [apply strip_tags_from_no_opening|].
  unfold strip_tags. apply strip_tags_unchanged, strip_tags_from_no_opening.
Qed.

Lemma search_result_readable language r :
  readable_result r -> search_result language r = Normal (result_shown language r).
Proof.
  intros [Hn [s Hs]]. unfold search_result, result_shown.
  rewrite !Get_not_nullish by exact Hn. cbn [cbind]. rewrite Hs. reflexivity.
Qed.

(** X12.  [wikipedia_search] makes one request, to the API of the
    language given, or of [en] when the arguments name no language; for
    an array of readable results it returns them in order, each with its
    title, its snippet without tags, its page id and the URL of the page
    in that same language, and it answers
    [{ ok: false, message: "No search results found" }] for an empty
    array. *)
Theorem wikipedia_search_lists_results
    (env : Env) (args : JsVal) (w : World)
    (response : Response) (data : JsVal) (results : list JsVal) :
  is_nullish args = false ->
  fetch_outcome env (wikipedia_api_url (language_of args) (GetOpt args "query"))
  = Normal response ->
  json response = Normal data ->
  GetOpt (GetOpt data "query") "search" = VArr results ->
  Forall readable_result results ->
  result (wikipedia_search env args) w
  = Normal match results with
           | [] => failure "No search results found"
           | _ => VObj [("ok", VBool true);
                        ("searchResults",
                         VArr (map (result_shown (language_of args)) results))]
           end
  /\ trace (after (wikipedia_search env args) w)
     = trace w ++ [FetchCall (wikipedia_api_url (language_of args)
                                (GetOpt args "query"))]
  /\ (GetOpt args "language" = VUndefined -> language_of args = VStr "en").
Proof.
  intros Hargs Hfetch Hjson Hsearch Hresults. unfold result, after.
  rewrite wikipedia_search_run by exact Hargs. cbv zeta. cbn [fst snd].
  split; [|split; [reflexivity | intros H; unfold language_of; now rewrite H]].
  rewrite Hfetch. cbn [cbind]. rewrite Hjson. cbn [cbind].
  unfold search_results. rewrite Hsearch. cbn [is_nullish].
  rewrite (map_throwing_total _ (result_shown (language_of args))).
  - cbn [cbind]. destruct results; reflexivity.
  - eapply Forall_impl; [exact Hresults|]. intros r Hr.
    now apply search_result_readable.
Qed.

Lemma wikipedia_search_lists_results_witness :
  is_nullish wikipedia_query = false
  /\ language_of wikipedia_query = VStr "en"
  /\ result (wikipedia_search (answering wikipedia_answer) wikipedia_query)
       initial_world
     = Normal
         (VObj [("ok", VBool true);
                ("searchResults",
                 VArr [VObj [("title", VStr "Berlin");
                             ("snippet", VStr "Berlin is the capital");
                             ("pageid", VNum 3354);
                             ("url", VStr "https://en.wikipedia.org/?curid=3354")]])]).
Proof.
  split; [reflexivity|]. split; [reflexivity|].
  refine (proj1 (wikipedia_search_lists_results (answering wikipedia_answer)
                   wikipedia_query initial_world (json_response wikipedia_answer)
                   wikipedia_answer _ eq_refl eq_refl eq_refl eq_refl _)).
  repeat constructor. eexists. reflexivity.
Defined.

(** ** Tools called without an argument object *)

(** X13.  [wikipedia_search] and [webpage_scrape] read their parameter
    before their [try] begins and are not wrapped by [_onTool]: called
    with [null] or [undefined] they throw, having made no request.  A
    tool wrapped by [_onTool], such as [search_related_topics], answers
    the same call with an error object. *)
Theorem unwrapped_tools_throw_without_arguments
    (env : Env) (args : JsVal) (w : World) :
  is_nullish args = true ->
  (exists e, wikipedia_search env args w = (Throw e, w))
  /\ (exists e, webpage_scrape env args w = (Throw e, w))
  /\ (exists message,
        search_related_topics env args w
        = (Normal (VObj [("error", VStr message)]), w)).
Proof.
  intros H. destruct args; try discriminate H;
    (split; [eexists; reflexivity|]); (split; [eexists; reflexivity|]);
    eexists; reflexivity.
Qed.

Lemma unwrapped_tools_throw_without_arguments_witness :
  is_nullish VNull = true
  /\ (exists e, webpage_scrape offline VNull initial_world = (Throw e, initial_world))
  /\ fst (webpage_scrape offline VNull initial_world)
     = Throw (TypeError "Cannot read properties of null (reading 'url')").
Proof.
  split; [reflexivity|]. split; [|reflexivity].
  exact (proj1 (proj2 (unwrapped_tools_throw_without_arguments offline VNull
                         initial_world eq_refl))).
Defined.

(** ** [get_weather] and [generate_image], continued *)



Lemma Get2_not_nullish v a b :
  is_nullish (GetOpt v a) = false -> Get2 v a b = Normal (GetOpt (GetOpt v a) b).
Proof.
  intros H. unfold Get2.
  assert (Hv : is_nullish v = false) by (destruct v; try reflexivity; discriminate H).
  rewrite (Get_not_nullish v a Hv). cbn. now apply Get_not_nullish.
Qed.


(** X15.  When the forecast can be read, that is, when the body is JSON
    with a [current] and a [current_units] member, [get_weather] returns
    the provider's JSON as it is and puts the temperature and the wind
    of the forecast on the marker.  The HTTP status is not looked at. *)
Theorem get_weather_returns_forecast
    (env : Env) (args : JsVal) (w : World) (response : Response) (data : JsVal) :
  is_nullish args = false ->
  fetch_outcome env (weather_url (GetOpt args "lat") (GetOpt args "lng"))
  = Normal response ->
  json response = Normal data ->
  is_nullish (GetOpt data "current") = false ->
  is_nullish (GetOpt data "current_units") = false ->
  result (get_weather env args) w = Normal data
  /\ marker (page (after (get_weather env args) w)) = Some (weather_marker args data)
  /\ coords (page (after (get_weather env args) w)) = Some (place_of args).
Proof.
  intros Hargs Hfetch Hjson Hc Hu.
  assert (Hd : is_nullish data = false)
    by (destruct data; try reflexivity; discriminate Hc).
  unfold result, after, get_weather.
  erewrite onTool_returns.
  2: { unfold fetch, bind, emit, modify, lift, ret, setMarker, setCoords.
       rewrite !destructure_not_nullish by exact Hargs.
       rewrite Hfetch, Hjson, !Get2_not_nullish by assumption. reflexivity. }
  cbn [fst snd]. rewrite Hd. repeat split.
Qed.

Lemma get_weather_returns_forecast_witness :
  is_nullish berlin = false
  /\ is_nullish (GetOpt forecast "current") = false
  /\ is_nullish (GetOpt forecast "current_units") = false
  /\ result (get_weather (answering forecast) berlin) initial_world = Normal forecast
  /\ marker (page (after (get_weather (answering forecast) berlin) initial_world))
     = Some {| lat := VNum 52520008; lng := VNum 13404954; location := VStr "Berlin";
               temperature := Some {| value := VNum 12; units := VStr "°C" |};
               wind_speed := Some {| value := VNum 9; units := VStr "km/h" |} |}.
Proof.
  split; [reflexivity|]. split; [reflexivity|]. split; [reflexivity|].
  destruct (get_weather_returns_forecast (answering forecast) berlin initial_world
              (json_response forecast) forecast eq_refl eq_refl eq_refl eq_refl eq_refl)
    as (Hr & Hm & _).
  split; [exact Hr | exact Hm].
Defined.


(** X16.  When the image provider answers with a first item, whether or
    not that item has a URL, [generate_image] answers
    [{ ok: true, displayedToUser: true, image_url }]; the image shown is
    the URL when there is one and is cleared to [null] when there is
    none. *)
Theorem generate_image_answers_displayed
    (env : Env) (args : JsVal) (w : World)
    (response first : JsVal) (others : list JsVal) :
  is_nullish args = false ->
  images_outcome env (GetOpt args "prompt") = Normal response ->
  GetOpt response "data" = VArr (first :: others) ->
  is_nullish first = false ->
  result (generate_image env args) w = Normal (image_answer (GetOpt first "url"))
  /\ displayedImage (page (after (generate_image env args) w))
     = (if ToBoolean (GetOpt first "url") then GetOpt first "url" else VNull)
  /\ trace (after (generate_image env args) w)
     = trace w ++ [ImagesGenerate (GetOpt args "prompt")].
Proof.
  intros Hargs Hgen Hdata Hfirst.
  assert (Hr : is_nullish response = false)
    by (destruct response; try reflexivity; discriminate Hdata).
  unfold result, after, generate_image.
  erewrite onTool_returns.
  2: { unfold images_generate, bind, emit, modify, lift, ret, setDisplayedImage.
       rewrite !destructure_not_nullish by exact Hargs.
       rewrite Hgen, (Get_not_nullish response "data" Hr), Hdata.
       cbn [GetIndex nth]. rewrite (Get_not_nullish first "url" Hfirst).
       reflexivity. }
  cbn [fst snd is_nullish]. repeat split.
Qed.

Lemma generate_image_answers_displayed_witness :
  is_nullish sunset_prompt = false
  /\ result (generate_image (answering image_without_url) sunset_prompt) initial_world
     = Normal (image_answer VUndefined)
  /\ displayedImage
       (page (after (generate_image (answering image_without_url) sunset_prompt)
                initial_world)) = VNull.
Proof.
  split; [reflexivity|].
  destruct (generate_image_answers_displayed (answering image_without_url)
              sunset_prompt initial_world image_without_url
              (VObj [("b64_json", VStr "iVBORw0KGgo=")]) []
              eq_refl eq_refl eq_refl eq_refl) as (Hr & Hd & _).
  split; [exact Hr | exact Hd].
Defined.

(** ** [webpage_scrape], continued *)

Lemma is_blank_trimStart s : is_blank (trimStart s) = is_blank s.
Proof.
  induction s as [s IH] using string_length_ind.
  destruct s as [|c1 r1]; [reflexivity|]. cbn [is_blank trimStart].
  destruct (white1 c1) eqn:W1; [apply IH; simpl; lia|].
  destruct r1 as [|c2 r2]; [cbn; now rewrite W1|].
  destruct (white2 c1 c2) eqn:W2; [apply IH; simpl; lia|].
  destruct r2 as [|c3 r3]; [cbn; now rewrite W1, W2|].
  destruct (white3 c1 c2 c3) eqn:W3; [apply IH; simpl; lia|].
  cbn. now rewrite W1, W2, W3.
Qed.

Lemma trimEnd_empty s : trimEnd s = EmptyString <-> is_blank s = true.
Proof.
  destruct s as [|c r]; [split; reflexivity|].
  cbn [trimEnd]. destruct (is_blank (String c r)); split; congruence.
Qed.

(** The test [!htmlContent.trim()] holds for the blank strings and for
    no other. *)
Lemma trim_empty_iff s : trim s = EmptyString <-> is_blank s = true.
Proof. unfold trim. now rewrite trimEnd_empty, is_blank_trimStart. Qed.

Lemma trim_eqb_blank s : String.eqb (trim s) EmptyString = is_blank s.
Proof.
  destruct (is_blank s) eqn:B.
  - apply String.eqb_eq. now apply trim_empty_iff.
  - apply String.eqb_neq. intros H. apply trim_empty_iff in H. congruence.
Qed.

(** X17.  [webpage_scrape] parses and converts exactly the pages that
    have text: after the one request to the scrape collaborator, the
    HTML parser is called if and only if the answer is a success whose
    body can be read and is not blank, and the Markdown converter only
    after the parser. *)
Theorem webpage_scrape_parses_pages_with_text
    (env : Env) (args : JsVal) (w : World) :
  is_nullish args = false ->
  exists calls,
    trace (after (webpage_scrape env args) w)
    = trace w ++ FetchCall (scrape_url (GetOpt args "url")) :: calls
    /\ (if page_has_text (fetch_outcome env (scrape_url (GetOpt args "url")))
        then calls = [CheerioLoad] \/ calls = [CheerioLoad; TurndownCall]
        else calls = []).
Proof.
  intros Hargs. unfold after. rewrite webpage_scrape_run by exact Hargs.
  cbv zeta. unfold page_has_text.
  destruct (fetch_outcome env _) as [r|e]; [|exists []; split; reflexivity].
  destruct (ok r); [|exists []; split; reflexivity].
  destruct (text r) as [t|e]; [|exists []; split; reflexivity].
  rewrite trim_eqb_blank.
  destruct (is_blank t); [exists []; split; reflexivity|].
  destruct (cheerio_body_html env t) as [b|e].
  - destruct (turndown_outcome env _);
      (exists [CheerioLoad; TurndownCall]; split; [|right; reflexivity]);
      cbn; now rewrite <- !app_assoc.
  - exists [CheerioLoad]. split; [|left; reflexivity].
    cbn. now rewrite <- !app_assoc.
Qed.

Lemma webpage_scrape_parses_pages_with_text_witness :
  is_nullish example_url = false
  /\ trace (after (webpage_scrape short_pages example_url) initial_world)
     = [FetchCall "http://localhost:8082/scrape?url=https%3A%2F%2Fexample.com%2F";
        CheerioLoad; TurndownCall]
  /\ exists calls,
       trace (after (webpage_scrape short_pages example_url) initial_world)
       = trace initial_world ++ FetchCall (scrape_url (GetOpt example_url "url")) :: calls
       /\ (if page_has_text
                (fetch_outcome short_pages (scrape_url (GetOpt example_url "url")))
           then calls = [CheerioLoad] \/ calls = [CheerioLoad; TurndownCall]
           else calls = []).
Proof.
  split; [reflexivity|]. split; [vm_compute; reflexivity|].
  exact (webpage_scrape_parses_pages_with_text short_pages example_url initial_world
           eq_refl).
Defined.

(** ** The session controller, continued *)

Lemma deliver_frame_recording (w : World) (c : Client) :
  clientRef w = Some c -> connected c = true ->
  status (wavRecorderRef w) = recording ->
  deliver_frame w = (Normal tt, log_effect ClientAppendInputAudio w).
Proof.
  destruct w as [pg mem cl [st] ply tr]; cbn. intros -> Hc ->.
  unfold deliver_frame, onFrame, client_isConnected, wavRecorder_getStatus, bind, gets;
    cbn. now rewrite Hc.
Qed.

Lemma deliver_frame_not_recording (w : World) :
  status (wavRecorderRef w) <> recording ->
  deliver_frame w = (Normal tt, w).
Proof.
  destruct w as [pg mem cl [st] ply tr]; cbn. intros H.
  destruct st; try reflexivity. now contradiction H.
Qed.

Lemma deliver_frames_recording (n : nat) (w : World) (c : Client) :
  clientRef w = Some c -> connected c = true ->
  status (wavRecorderRef w) = recording ->
  deliver_frames n w
  = (Normal tt,
     {| page := page w; memory := memory w; clientRef := clientRef w;
        wavRecorderRef := wavRecorderRef w;
        wavStreamPlayerRef := wavStreamPlayerRef w;
        trace := trace w ++ repeat ClientAppendInputAudio n |}).
Proof.
  revert w. induction n as [|n IH]; intros w Hc Hup Hrec.
  - cbn. rewrite app_nil_r. unfold ret. now rewrite world_eta.
  - cbn [deliver_frames].
    rewrite (bind_normal _ _ _ _ _ (deliver_frame_recording w c Hc Hup Hrec)).
    rewrite (IH (log_effect ClientAppendInputAudio w)) by assumption.
    cbn. now rewrite <- app_assoc.
Qed.

Lemma deliver_frames_not_recording (n : nat) (w : World) :
  status (wavRecorderRef w) <> recording ->
  deliver_frames n w = (Normal tt, w).
Proof.
  intros H. induction n as [|n IH]; [reflexivity|].
  cbn [deliver_frames].
  now rewrite (bind_normal _ _ _ _ _ (deliver_frame_not_recording w H)).
Qed.

(** X18.  A push-to-talk turn on a connected transport, nothing being
    played: pressing interrupts the player and starts the recorder, each
    chunk captured while the button is held is forwarded to the
    transport, releasing pauses the recorder and asks for a response,
    and chunks offered after the release are not forwarded. *)
Theorem push_to_talk_turn (w : World) (c : Client) (held released : nat) :
  clientRef w = Some c -> connected c = true ->
  playing (wavStreamPlayerRef w) = None ->
  trace (after (startRecording ;; deliver_frames held ;;
                stopRecording ;; deliver_frames released) w)
  = trace w ++ [PlayerInterrupt; RecorderRecord]
    ++ repeat ClientAppendInputAudio held
    ++ [RecorderPause; ClientCreateResponse].
Proof.
  destruct w as [pg mem cl rec [ply] tr]; cbn. intros -> Hc ->.
  unfold after.
  erewrite bind_normal by reflexivity.
  erewrite bind_normal.
  2: { eapply deliver_frames_recording; [reflexivity | exact Hc | reflexivity]. }
  erewrite bind_normal.
  2: { unfold stopRecording, when_client, client_isConnected, bind, gets,
         setIsRecording, modify; cbn. rewrite Hc. reflexivity. }
  rewrite deliver_frames_not_recording by (cbn; discriminate).
  cbn. now rewrite <- !app_assoc.
Qed.

Lemma push_to_talk_turn_witness :
  (exists c, clientRef connected_world = Some c /\ connected c = true)
  /\ playing (wavStreamPlayerRef connected_world) = None
  /\ trace (after (startRecording ;; deliver_frames 3 ;;
                   stopRecording ;; deliver_frames 2) connected_world)
     = trace connected_world ++ [PlayerInterrupt; RecorderRecord]
       ++ repeat ClientAppendInputAudio 3
       ++ [RecorderPause; ClientCreateResponse].
Proof.
  split; [eexists; split; vm_compute; reflexivity|].
  split; [vm_compute; reflexivity|].
  refine (push_to_talk_turn connected_world _ 3 2 _ _ _); vm_compute; reflexivity.
Defined.





(** X21.  While the client reference is empty the handlers return at
    their guard [if (!client) return]: connecting and switching the mode
    do nothing, and pressing or releasing the talk button only sets the
    flag the page shows; no device and no transport is called. *)
Theorem handlers_return_without_client (w : World) (value : string) :
  clientRef w = None ->
  after connectConversation w = w
  /\ after (changeTurnEndType value) w = w
  /\ after startRecording w = set_page (with_isRecording true) w
  /\ after stopRecording w = set_page (with_isRecording false) w
  /\ trace (after startRecording w) = trace w.
Proof.
  destruct w as [pg mem cl rec ply tr]; cbn. intros ->. repeat split.
Qed.

Lemma handlers_return_without_client_witness :
  clientRef initial_world = None
  /\ after connectConversation initial_world = initial_world
  /\ isRecording (page (after startRecording initial_world)) = true
  /\ status (wavRecorderRef (after startRecording initial_world)) = ended.
Proof.
  split; [reflexivity|].
  destruct (handlers_return_without_client initial_world "none" eq_refl)
    as (Hc & _ & Hs & _).
  split; [exact Hc|]. rewrite Hs. split; reflexivity.
Defined.

(** ** The session controller never writes the store *)

Lemma keeps_memory_ret {A : Type} (a : A) : keeps_memory (ret a).
Proof. intros w. reflexivity. Qed.

Lemma keeps_memory_gets {A : Type} (f : World -> A) : keeps_memory (gets f).
Proof. intros w. reflexivity. Qed.

Lemma keeps_memory_bind {A B : Type} (m : M A) (k : A -> M B) :
  keeps_memory m -> (forall a, keeps_memory (k a)) -> keeps_memory (bind m k).
Proof.
  intros Hm Hk w. specialize (Hm w). unfold after, bind in *.
  destruct (m w) as [[a|e] w1]; cbn in *; [|exact Hm].
  specialize (Hk a w1). unfold after in Hk. congruence.
Qed.

Lemma keeps_memory_modify (f : World -> World) :
  (forall w, memory (f w) = memory w) -> keeps_memory (modify f).
Proof. intros H w. apply H. Qed.

Lemma keeps_memory_when_client (body : M unit) :
  keeps_memory body -> keeps_memory (when_client body).
Proof.
  intros H w. unfold after, when_client.
  destruct (clientRef w); [apply H | reflexivity].
Qed.

Ltac keeps_memory_step :=
  match goal with
  | |- keeps_memory (bind _ _) => apply keeps_memory_bind; [|intros]
  | |- keeps_memory (when_client _) => apply keeps_memory_when_client
  | |- keeps_memory (ret _) => apply keeps_memory_ret
  | |- keeps_memory (gets _) => apply keeps_memory_gets
  | |- keeps_memory (modify _) =>
      apply keeps_memory_modify; intros; reflexivity
  | |- keeps_memory (if ?b then _ else _) => destruct b
  | |- keeps_memory (match ?x with _ => _ end) => destruct x
  end.

Lemma run_op_keeps_memory (op : SessionOp) : keeps_memory (run_op op).
Proof.
  destruct op; cbn [run_op];
    unfold connectConversation, disconnectConversation, startRecording,
      stopRecording, changeTurnEndType, deliver_frame, onFrame,
      on_conversation_interrupted, handle_realtime_event,
      setIsConnected, setRealtimeEvents, setItems, setCoords, setMarker,
      setIsRecording, setCanPushToTalk,
      wavRecorder_begin, wavRecorder_record, wavRecorder_pause, wavRecorder_end,
      wavRecorder_getStatus, recorder_set,
      wavStreamPlayer_connect, wavStreamPlayer_interrupt,
      client_connect, client_disconnect, client_updateSession, client_isConnected,
      client_getItems, client_getTurnDetectionType, update_client, emit;
    repeat keeps_memory_step.
Qed.

(** X22.  No operation of the session controller writes the memory of
    the store: after any sequence of connecting, disconnecting, pressing
    and releasing the talk button, switching the mode, captured chunks,
    interruptions and logged events, the store holds what it held. *)
Theorem session_operations_keep_memory (ops : list SessionOp) (w : World) :
  memory (after (run_ops ops) w) = memory w.
Proof.
  revert w. change (keeps_memory (run_ops ops)).
  induction ops as [|op ops IH]; cbn [run_ops]; [apply keeps_memory_ret|].
  apply keeps_memory_bind; [apply run_op_keeps_memory | intros; exact IH].
Qed.

(** ** Registration of the tools *)

Lemma add_tools_run (names : list string) (w : World) (c : Client) :
  clientRef w = Some c ->
  add_tools names w
  = (Normal tt,
     {| page := page w; memory := memory w;
        clientRef := Some (with_tools (tools c ++ names) c);
        wavRecorderRef := wavRecorderRef w;
        wavStreamPlayerRef := wavStreamPlayerRef w;
        trace := trace w ++ map ClientAddTool names |}).
Proof.
  revert w c. induction names as [|n names IH]; intros w c Hc.
  - cbn. rewrite !app_nil_r. unfold ret. f_equal.
    destruct w as [pg mem cl rec ply tr]; cbn in *. subst cl.
    now destruct c.
  - cbn [add_tools].
    erewrite bind_normal by reflexivity.
    erewrite IH.
    2: { cbn. rewrite Hc. reflexivity. }
    cbn. rewrite <- !app_assoc. reflexivity.
Qed.

(** X23.  Mounting leaves a client that holds the ten tools, added once
    each in the order of the source after the tools it held before; the
    names are distinct, and a name has a handler exactly when it is one
    of the ten. *)
Theorem mount_registers_every_tool (env : Env) (w : World) :
  (exists c, clientRef (after (mount env) w) = Some c
             /\ tools c = match clientRef w with
                          | Some c0 => tools c0
                          | None => []
                          end ++ tool_names)
  /\ NoDup tool_names
  /\ (forall name, In name tool_names <-> is_Some (tool_handler env name)).
Proof.
  split; [|split].
  - destruct w as [pg mem [c|] rec ply tr];
      (eexists; split; [reflexivity|]); cbn; rewrite <- ?app_assoc; reflexivity.
  - unfold tool_names.
    repeat (apply NoDup_cons; split;
            [rewrite list_elem_of_In; cbn; intros H;
             repeat (destruct H as [H|H]; [discriminate H|]); exact H|]).
    apply NoDup_nil. exact I.
  - intros name. split.
    + cbn. intros H.
      repeat (destruct H as [H|H]; [subst name; eexists; reflexivity|]).
      contradiction.
    + unfold tool_handler. intros [h Hh].
      repeat match type of Hh with
             | (if String.eqb name ?s then _ else _) = _ =>
                 destruct (String.eqb_spec name s) as [->|_]; [cbn; tauto|]
             end.
      discriminate Hh.
Qed.

(** ** [formatTime] *)

Lemma string_length_app (a b : string) :
  String.length (a +:+ b) = (String.length a + String.length b)%nat.
Proof.
  induction a as [|c a IH]; [reflexivity|].
  change (String c a +:+ b) with (String c (a +:+ b)). cbn. now rewrite IH.
Qed.

Lemma pad_two_characters (n : Z) : 0 <= n < 100 -> String.length (pad n) = 2%nat.
Proof.
  intros Hn.
  assert (H : forallb (fun k => Nat.eqb (String.length (pad (Z.of_nat k))) 2)
                (seq 0 100) = true) by (vm_compute; reflexivity).
  rewrite forallb_forall in H. specialize (H (Z.to_nat n)).
  rewrite Z2Nat.id in H by lia. apply Nat.eqb_eq, H, in_seq. lia.
Qed.

Lemma rem_of_quotient (delta d m : Z) :
  0 <= delta -> 0 < d -> 0 < m -> 0 <= Z.rem (delta / d) m < m.
Proof.
  intros Hdelta Hd Hm.
  assert (0 <= delta / d) by (apply Z.div_pos; lia).
  rewrite Z.rem_mod_nonneg by lia. apply Z.mod_pos_bound. lia.
Qed.

Lemma rem_of_quotient_period (delta d m : Z) :
  0 <= delta -> 0 < d -> 0 < m ->
  Z.rem ((delta + d * m) / d) m = Z.rem (delta / d) m.
Proof.
  intros Hdelta Hd Hm.
  assert (0 <= delta / d) by (apply Z.div_pos; lia).
  replace (delta + d * m) with (delta + m * d) by lia.
  rewrite Z.div_add by lia.
  rewrite !Z.rem_mod_nonneg by lia.
  replace (delta / d + m) with (delta / d + 1 * m) by lia.
  apply Z.mod_add. lia.
Qed.

(** X24.  For a time stamp that is not before the start, [formatTime]
    gives eight characters, two digits each for the minutes, the seconds
    and the hundredths; the display wraps every hour: a time stamp one
    hour later shows the same text. *)
Theorem formatTime_eight_characters_hourly (startTime timestamp : Z) :
  startTime <= timestamp ->
  String.length (formatTime startTime timestamp) = 8%nat
  /\ formatTime startTime (timestamp + 3600000) = formatTime startTime timestamp.
Proof.
  intros H. unfold formatTime. cbv zeta.
  set (delta := timestamp - startTime).
  assert (Hdelta : 0 <= delta) by (unfold delta; lia).
  split.
  - pose proof (rem_of_quotient delta 60000 60 Hdelta) as Hm.
    pose proof (rem_of_quotient delta 1000 60 Hdelta) as Hs.
    pose proof (rem_of_quotient delta 10 100 Hdelta) as Hh.
    rewrite !string_length_app, !pad_two_characters by lia.
    reflexivity.
  - replace (timestamp + 3600000 - startTime) with (delta + 3600000)
      by (unfold delta; lia).
    change 3600000 with (60000 * 60) at 1.
    change 3600000 with (1000 * 3600) at 1.
    change 3600000 with (10 * 360000).
    rewrite (rem_of_quotient_period delta 60000 60) by lia.
    assert (Hs : Z.rem ((delta + 1000 * 3600) / 1000) 60 = Z.rem (delta / 1000) 60).
    { assert (0 <= delta / 1000) by (apply Z.div_pos; lia).
      replace (delta + 1000 * 3600) with (delta + 3600 * 1000) by lia.
      rewrite Z.div_add by lia. rewrite !Z.rem_mod_nonneg by lia.
      replace (delta / 1000 + 3600) with (delta / 1000 + 60 * 60) by lia.
      apply Z.mod_add. lia. }
    assert (Hh : Z.rem ((delta + 10 * 360000) / 10) 100 = Z.rem (delta / 10) 100).
    { assert (0 <= delta / 10) by (apply Z.div_pos; lia).
      replace (delta + 10 * 360000) with (delta + 360000 * 10) by lia.
      rewrite Z.div_add by lia. rewrite !Z.rem_mod_nonneg by lia.
      replace (delta / 10 + 360000) with (delta / 10 + 3600 * 100) by lia.
      apply Z.mod_add. lia. }
    now rewrite Hs, Hh.
Qed.

Lemma formatTime_eight_characters_hourly_witness :
  0 <= 83450
  /\ formatTime 0 83450 = "01:23.45"
  /\ formatTime 0 (83450 + 3600000) = formatTime 0 83450.
Proof.
  split; [lia|]. split; [vm_compute; reflexivity|].
  refine (proj2 (formatTime_eight_characters_hourly 0 83450 _)). lia.
Defined.

(** ** Visibility of blocks and of event payloads *)

(** X25.  [toggleVisibility] flips what is shown for the block it names
    and reads no other block differently; toggling the same block twice
    shows every block as before. *)
Theorem toggleVisibility_flips_one_block (block : string) (prev : gmap string bool) :
  shown (toggleVisibility block prev) block = negb (shown prev block)
  /\ (forall other, other <> block ->
        toggleVisibility block prev !! other = prev !! other)
  /\ (forall any,
        shown (toggleVisibility block (toggleVisibility block prev)) any
        = shown prev any).
Proof.
  unfold shown, toggleVisibility. split; [|split].
  - now rewrite lookup_insert_eq.
  - intros other Hother. now rewrite lookup_insert_ne by congruence.
  - intros any. destruct (decide (any = block)) as [->|Hne].
    + rewrite !lookup_insert_eq. cbn. now rewrite negb_involutive.
    + now rewrite !lookup_insert_ne by congruence.
Qed.

(** X26.  On a map whose entries are all [true], the click handler of an
    event flips whether its payload is shown, keeps every entry [true],
    and a second click gives back the very same map. *)
Theorem toggle_expanded_twice (id : string) (expandedEvents : gmap string bool) :
  only_true expandedEvents ->
  shown (toggle_expanded id expandedEvents) id = negb (shown expandedEvents id)
  /\ only_true (toggle_expanded id expandedEvents)
  /\ toggle_expanded id (toggle_expanded id expandedEvents) = expandedEvents.
Proof.
  intros Htrue. unfold toggle_expanded, shown, only_true in *.
  destruct (expandedEvents !! id) as [v|] eqn:E; cbn.
  - assert (v = true) as -> by (exact (Htrue id v E)). cbn.
    rewrite lookup_delete_eq. cbn. split; [reflexivity|]. split.
    + now apply map_Forall_delete.
    + rewrite insert_delete_eq. now apply insert_id.
  - rewrite lookup_insert_eq. cbn. split; [reflexivity|]. split.
    + now apply map_Forall_insert_2.
    + now apply delete_insert_id.
Qed.

Lemma toggle_expanded_twice_witness :
  only_true (<["event_1" := true]> ∅)
  /\ toggle_expanded "event_2"
       (toggle_expanded "event_2" (<["event_1" := true]> ∅))
     = <["event_1" := true]> ∅.
Proof.
  assert (H : only_true (<["event_1" := true]> ∅)).
  { apply map_Forall_insert_2; [reflexivity | apply map_Forall_empty]. }
  split; [exact H|].
  exact (proj2 (proj2 (toggle_expanded_twice "event_2" _ H))).
Defined.

(** ** The proxy server, continued *)

(** X27.  Every request the proxy answers gets status 400, 200 or 500:
    400 without any request to the provider, 200 and 500 after exactly
    one. *)
Theorem proxy_status_codes
    (net : string -> Completion Response) (path : string)
    (req_query : list (string * JsVal)) (h : ProxyServer.Handled) :
  ProxyServer.get net path req_query = Some h ->
  (ProxyServer.statusCode (ProxyServer.reply h) = 400%nat
   /\ ProxyServer.contacted h = [])
  \/ ((ProxyServer.statusCode (ProxyServer.reply h) = 200%nat
       \/ ProxyServer.statusCode (ProxyServer.reply h) = 500%nat)
      /\ length (ProxyServer.contacted h) = 1%nat).
Proof.
  unfold ProxyServer.get.
  destruct (String.eqb path "/proxy").
  - intros [= <-]. unfold ProxyServer.proxy_route.
    destruct (negb _); [left; split; reflexivity|]. right. cbn.
    destruct (cbind _ _); cbn; auto.
  - destruct (String.eqb path "/scrape"); [|discriminate].
    intros [= <-]. unfold ProxyServer.scrape_route.
    destruct (negb _); [left; split; reflexivity|]. right. cbn.
    destruct (cbind _ _); cbn; auto.
Qed.

Lemma proxy_status_codes_witness :
  ProxyServer.get unreachable "/scrape" [("url", VStr "https://example.com/")]
  = Some {| ProxyServer.reply :=
              {| ProxyServer.statusCode := 500;
                 ProxyServer.body := ProxyServer.SendText "Error scraping webpage" |};
            ProxyServer.contacted := ["https://example.com/"] |}
  /\ ((ProxyServer.statusCode
         (ProxyServer.reply
            (ProxyServer.scrape_route unreachable
               [("url", VStr "https://example.com/")])) = 400%nat
       /\ ProxyServer.contacted
            (ProxyServer.scrape_route unreachable
               [("url", VStr "https://example.com/")]) = [])
      \/ ((ProxyServer.statusCode
             (ProxyServer.reply
                (ProxyServer.scrape_route unreachable
                   [("url", VStr "https://example.com/")])) = 200%nat
           \/ ProxyServer.statusCode
                (ProxyServer.reply
                   (ProxyServer.scrape_route unreachable
                      [("url", VStr "https://example.com/")])) = 500%nat)
          /\ length (ProxyServer.contacted
                       (ProxyServer.scrape_route unreachable
                          [("url", VStr "https://example.com/")])) = 1%nat)).
Proof.
  split; [reflexivity|].
  exact (proxy_status_codes unreachable "/scrape"
           [("url", VStr "https://example.com/")] _ eq_refl).
Defined.

(** X28.  The two routes treat the provider's status differently.
    [/proxy] relays any body it can read as JSON with status 200,
    whatever the status of the provider's response; [/scrape] relays the
    text of a success with status 200 and answers a response that is not
    a success with status 500 and its own message. *)
Theorem proxy_relays_json_scrape_checks_status
    (net : string -> Completion Response)
    (req_query : list (string * JsVal)) (name : string) (v : JsVal)
    (response : Response) :
  assoc name req_query = Some v ->
  ToBoolean v = true ->
  (name = "q" ->
   net (ProxyServer.duckduckgo_url v) = Normal response ->
   forall data, json response = Normal data ->
   ProxyServer.reply (ProxyServer.proxy_route net req_query)
   = {| ProxyServer.statusCode := 200; ProxyServer.body := ProxyServer.SendJson data |})
  /\ (name = "url" ->
      net (ToString v) = Normal response ->
      ProxyServer.reply (ProxyServer.scrape_route net req_query)
      = if ok response then
          match text response with
          | Normal html =>
              {| ProxyServer.statusCode := 200;
                 ProxyServer.body := ProxyServer.SendText html |}
          | Throw _ =>
              {| ProxyServer.statusCode := 500;
                 ProxyServer.body := ProxyServer.SendText "Error scraping webpage" |}
          end
        else {| ProxyServer.statusCode := 500;
                ProxyServer.body := ProxyServer.SendText "Error scraping webpage" |}).
Proof.
  intros Hv Ht. split.
  - intros -> Hnet data Hjson.
    unfold ProxyServer.proxy_route, ProxyServer.query_param.
    rewrite Hv. cbn [default]. simpl. rewrite Ht. cbn [negb].
    cbn [ProxyServer.reply]. rewrite Hnet. cbn [cbind]. now rewrite Hjson.
  - intros -> Hnet.
    unfold ProxyServer.scrape_route, ProxyServer.query_param.
    rewrite Hv. simpl. rewrite Ht. cbn [negb ProxyServer.reply].
    rewrite Hnet. cbn [cbind]. destruct (ok response); cbn [cbind]; [|reflexivity].
    destruct (text response); reflexivity.
Qed.

Lemma proxy_relays_json_scrape_checks_status_witness :
  assoc "q" [("q", VStr "Berlin")] = Some (VStr "Berlin")
  /\ ToBoolean (VStr "Berlin") = true
  /\ ok rate_limited = false
  /\ ProxyServer.reply
       (ProxyServer.proxy_route (fun _ => Normal rate_limited) [("q", VStr "Berlin")])
     = {| ProxyServer.statusCode := 200;
          ProxyServer.body := ProxyServer.SendJson (VObj [("error", VStr "rate limit")]) |}.
Proof.
  split; [reflexivity|]. split; [reflexivity|]. split; [reflexivity|].
  exact (proj1 (proxy_relays_json_scrape_checks_status (fun _ => Normal rate_limited)
                  [("q", VStr "Berlin")] "q" (VStr "Berlin") rate_limited
                  eq_refl eq_refl) eq_refl eq_refl _ eq_refl).
Defined.
